(** * max1730x_logger: the bit-banged I2C engine and the native SMBus backend

    A shallow embedding of [ftd2xx_iface.py] and [smbus2_iface.py].

    Python integers are [Z]; a byte stream handed to the bridge is a
    [list Z] whose conversion with [bytes(...)] is checked as Python checks
    it.  A method of the class is a function in a state-and-exception monad
    over the state of the transport behind [self.__dev]; the name mangling
    prefix [__] of the private methods is dropped. *)

From Stdlib Require Import ZArith List Bool Lia QArith.
From Stdlib Require String Ascii DecimalString.
Import ListNotations.
Open Scope Z_scope.

Set Implicit Arguments.

(** ** Python values, exceptions and the monad of a method body *)

Module Py.

(** The exceptions the modelled code can raise.  [IOError] is raised by
    the engine itself; the others come from the built-ins it calls
    ([bytes], indexing, [struct.unpack]) or from the transport. *)
Inductive exn : Type :=
| IOError
| IndexError
| ValueError
| StructError
| TransportError.

Inductive result (A : Type) : Type :=
| Ok (a : A)
| Raise (e : exn).
Arguments Raise {A} e.

(** A computation over a state [S]: a value or an exception, and the
    state left behind (an exception does not roll the state back). *)
Definition M (S A : Type) : Type := S -> result A * S.

Definition ret {S A} (a : A) : M S A := fun s => (Ok a, s).

Definition raise {S A} (e : exn) : M S A := fun s => (Raise e, s).

Definition bind {S A B} (m : M S A) (k : A -> M S B) : M S B :=
  fun s =>
    match m s with
    | (Ok a, s') => k a s'
    | (Raise e, s') => (Raise e, s')
    end.

(** A pure built-in that may raise, used inside a method. *)
Definition lift {S A} (r : result A) : M S A := fun s => (r, s).

(** [for x in xs: acc = body(x, acc)]. *)
Fixpoint for_in {S A B} (xs : list A) (body : A -> B -> M S B) (acc : B)
  : M S B :=
  match xs with
  | [] => ret acc
  | x :: xs' => bind (body x acc) (fun acc' => for_in xs' body acc')
  end.

(** [range(n)]: empty when [n <= 0]. *)
Definition range (n : Z) : list Z := map Z.of_nat (seq 0 (Z.to_nat n)).

(** [l * n] on a list: [n] copies of [l], none when [n <= 0]. *)
Definition list_mul {A} (l : list A) (n : Z) : list A :=
  concat (repeat l (Z.to_nat n)).

(** Truth value of an integer in a condition. *)
Definition truthy (x : Z) : bool := negb (x =? 0).

Definition is_byte (b : Z) : bool := (0 <=? b) && (b <? 256).

Definition is_bytes (l : list Z) : bool := forallb is_byte l.

(** [bytes(data)] on an iterable of integers: [ValueError] unless every
    element is in [range(0, 256)]. *)
Definition bytes (data : list Z) : result (list Z) :=
  if is_bytes data then Ok data else Raise ValueError.

(** [seq[0]]. *)
Definition index0 {A} (l : list A) : result A :=
  match l with
  | x :: _ => Ok x
  | [] => Raise IndexError
  end.

(** [struct.unpack('<' + 'H'*n, buf)]: the buffer must hold exactly
    [2*n] bytes; each pair is one unsigned 16-bit value, low byte
    first. *)
Fixpoint unpack_H (n : nat) (buf : list Z) : result (list Z) :=
  match n, buf with
  | O, [] => Ok []
  | S n', lo :: hi :: rest =>
      match unpack_H n' rest with
      | Ok ws => Ok ((lo + 256 * hi) :: ws)
      | Raise e => Raise e
      end
  | _, _ => Raise StructError
  end.

(** ['H'*num_words] is the empty string when [num_words <= 0]. *)
Definition unpack_le_H (num_words : Z) (buf : list Z) : result (list Z) :=
  unpack_H (Z.to_nat num_words) buf.

End Py.

Import Py.

Declare Scope py_scope.
Delimit Scope py_scope with py.
Notation "x <- m ;; k" := (bind m (fun x => k))
  (at level 61, m at next level, right associativity) : py_scope.
Notation "m ;; k" := (bind m (fun _ => k))
  (at level 61, right associativity) : py_scope.
Open Scope py_scope.

(** ** Constants of the MPSSE command set ([ftd2xx_iface.py], lines 20-36) *)

Definition CMD_SET_DATABITS_LOW : Z := 0x80.
Definition CMD_DATAOUT_NEG_EDGE : Z := 0x13.
Definition CMD_DATAIN_POS_EDGE : Z := 0x22.
Definition CMD_SEND_IMMEDIATE : Z := 0x87.
Definition CMD_CLKDIV_DISABLE : Z := 0x8B.
Definition CMD_SET_CLOCK : Z := 0x86.
Definition DATASIZE_1BIT : Z := 0x00.
Definition DATASIZE_8BITS : Z := 0x07.
Definition DATA_SEND_NACK : Z := 0x80.
Definition DATA_SEND_ACK : Z := 0x00.
Definition VAL_SCLHI_SDAHI : Z := 0x03.
Definition VAL_SCLHI_SDALO : Z := 0x01.
Definition VAL_SCLLO_SDALO : Z := 0x00.
Definition VAL_SCLLO_SDAHI : Z := 0x02.
Definition DIR_SCLOUT_SDAOUT : Z := 0x13.
Definition DIR_SCLIN_SDAIN : Z := 0x10.
Definition DIR_SCLOUT_SDAIN : Z := 0x11.

(** ** The transport behind [self.__dev] *)

(** What the engine asks of the [ftd2xx] device handle and of the clock.
    [dev_write] receives a byte string (the conversion is done by the
    caller) and returns the count written; [dev_read] returns the bytes the
    device delivers for a request of [nbytes]. *)
Class Transport (T : Type) : Type := {
  dev_setLatencyTimer : Z -> M T unit;
  dev_setBitMode : Z -> Z -> M T unit;
  dev_write : list Z -> M T Z;
  dev_read : Z -> M T (list Z);
  sleep : Q -> M T unit
}.

(** ** The engine: class [ftd2xx_i2c] *)

Module ftd2xx_i2c.

(** The byte streams the methods build in their local [cmd_data]. *)

(** [div = int((6000000 / (40000 * 2)) - 1)]: true division, then
    truncation towards zero.  The quotient is exact, so the rational
    value is the floating-point one. *)
Definition div_q : Q := ((6000000 # 1) / ((40000 # 1) * (2 # 1)) - (1 # 1))%Q.

Definition py_int (q : Q) : Z := Z.quot (Qnum q) (Z.pos (Qden q)).

Definition div : Z := py_int div_q.

Definition start_cmd_data : list Z :=
  let START_DUR_1 := 10 in
  let START_DUR_2 := 20 in
  let cmd_data :=
    list_mul [CMD_SET_DATABITS_LOW; VAL_SCLHI_SDAHI; DIR_SCLOUT_SDAOUT] START_DUR_1 in
  let cmd_data := cmd_data ++
    list_mul [CMD_SET_DATABITS_LOW; VAL_SCLHI_SDALO; DIR_SCLOUT_SDAOUT] START_DUR_2 in
  let cmd_data := cmd_data ++
    [CMD_SET_DATABITS_LOW; VAL_SCLLO_SDALO; DIR_SCLOUT_SDAOUT] in
  cmd_data.

Definition stop_cmd_data : list Z :=
  let STOP_DUR_1 := 10 in
  let STOP_DUR_2 := 10 in
  let STOP_DUR_3 := 10 in
  let cmd_data :=
    list_mul [CMD_SET_DATABITS_LOW; VAL_SCLLO_SDALO; DIR_SCLOUT_SDAOUT] STOP_DUR_1 in
  let cmd_data := cmd_data ++
    list_mul [CMD_SET_DATABITS_LOW; VAL_SCLHI_SDALO; DIR_SCLOUT_SDAOUT] STOP_DUR_2 in
  let cmd_data := cmd_data ++
    list_mul [CMD_SET_DATABITS_LOW; VAL_SCLHI_SDAHI; DIR_SCLOUT_SDAOUT] STOP_DUR_3 in
  let cmd_data := cmd_data ++
    [CMD_SET_DATABITS_LOW; VAL_SCLHI_SDAHI; DIR_SCLIN_SDAIN] in
  cmd_data.

Definition write_get_ack_cmd_data (data : Z) : list Z :=
  let cmd_data := [CMD_SET_DATABITS_LOW; VAL_SCLLO_SDAHI; DIR_SCLOUT_SDAOUT] in
  let cmd_data := cmd_data ++ [CMD_DATAOUT_NEG_EDGE; DATASIZE_8BITS; data] in
  let cmd_data := cmd_data ++ [CMD_SET_DATABITS_LOW; VAL_SCLLO_SDALO; DIR_SCLOUT_SDAIN] in
  let cmd_data := cmd_data ++ [CMD_DATAIN_POS_EDGE; DATASIZE_1BIT] in
  let cmd_data := cmd_data ++ [CMD_SEND_IMMEDIATE] in
  cmd_data.

Definition read_give_ack_cmd_data (nack : bool) : list Z :=
  let cmd_data := [CMD_SET_DATABITS_LOW; VAL_SCLLO_SDALO; DIR_SCLOUT_SDAIN] in
  let cmd_data := cmd_data ++ [CMD_DATAIN_POS_EDGE; DATASIZE_8BITS] in
  let cmd_data :=
    if nack then
      (cmd_data ++ [CMD_SET_DATABITS_LOW; VAL_SCLLO_SDALO; DIR_SCLOUT_SDAIN])
        ++ [CMD_DATAOUT_NEG_EDGE; DATASIZE_1BIT; DATA_SEND_NACK]
    else
      (cmd_data ++ [CMD_SET_DATABITS_LOW; VAL_SCLLO_SDALO; DIR_SCLOUT_SDAOUT])
        ++ [CMD_DATAOUT_NEG_EDGE; DATASIZE_1BIT; DATA_SEND_ACK] in
  let cmd_data := cmd_data ++ [CMD_SET_DATABITS_LOW; VAL_SCLLO_SDALO; DIR_SCLOUT_SDAIN] in
  let cmd_data := cmd_data ++ [CMD_SEND_IMMEDIATE] in
  cmd_data.

(** The address byte [__ft_i2c_dev_addr] hands to the write primitive. *)
Definition dev_addr_byte (bus_addr : Z) (read : bool) : Z :=
  let addr := Z.land bus_addr 0xFE in
  let addr := if read then Z.lor addr 0x1 else addr in
  addr.

Section Engine.

Context {T : Type} `{Transport T}.

Definition ft_write (data : list Z) : M T Z :=
  s <- lift (bytes data) ;;
  dev_write s.

(** The driver's answer is a [str] or a [bytes] object; either way the
    result is the list of its byte values, which is what [dev_read]
    returns. *)
Definition ft_read (nbytes : Z) : M T (list Z) :=
  dev_read nbytes.

(** [__init__], after [_ftd.open(bus_num)] has produced the handle. *)
Definition init : M T unit :=
  dev_setLatencyTimer 8 ;;
  dev_setBitMode 0 0 ;;
  dev_setBitMode 0 2 ;;
  sleep (5 # 100)%Q ;;
  ft_write [CMD_CLKDIV_DISABLE; 1] ;;
  ft_write [CMD_SET_CLOCK; div mod 256; div / 256] ;;
  ft_read 2 ;;
  ft_write [CMD_SET_DATABITS_LOW; 0x13; 0x13] ;;
  ret tt.

Definition ft_i2c_start : M T unit :=
  ft_write start_cmd_data ;;
  ret tt.

Definition ft_i2c_stop : M T unit :=
  ft_write stop_cmd_data ;;
  ret tt.

Definition ft_i2c_write_get_ack (data : Z) : M T unit :=
  ft_write (write_get_ack_cmd_data data) ;;
  result <- ft_read 1 ;;
  r0 <- lift (index0 result) ;;
  if truthy (Z.land r0 0x1) then raise IOError else ret tt.

Definition ft_i2c_read_give_ack (nack : bool) : M T Z :=
  ft_write (read_give_ack_cmd_data nack) ;;
  result <- ft_read 1 ;;
  lift (index0 result).

Definition ft_i2c_dev_addr (bus_addr : Z) (read : bool) : M T unit :=
  ft_i2c_write_get_ack (dev_addr_byte bus_addr read).

Definition ft_i2c_write_reg_addr (bus_addr reg_addr : Z) (stop : bool)
  : M T unit :=
  ft_i2c_start ;;
  ft_i2c_dev_addr bus_addr false ;;
  ft_i2c_write_get_ack reg_addr ;;
  if stop then ft_i2c_stop else ret tt.

Definition ft_i2c_read_bytes (bus_addr num_bytes : Z) (stop : bool)
  : M T (list Z) :=
  let out_data := [] in
  ft_i2c_start ;;
  ft_i2c_dev_addr bus_addr true ;;
  out_data <- for_in (range num_bytes)
                (fun i out_data =>
                   b <- ft_i2c_read_give_ack (i =? num_bytes - 1) ;;
                   ret (out_data ++ [b]))
                out_data ;;
  (if stop then ft_i2c_stop else ret tt) ;;
  ret out_data.

Definition i2c_read_words (bus_addr reg_addr num_words : Z)
  : M T (list Z) :=
  ft_i2c_write_reg_addr bus_addr reg_addr false ;;
  rd <- ft_i2c_read_bytes bus_addr (num_words * 2) true ;;
  buf <- lift (bytes rd) ;;
  lift (unpack_le_H num_words buf).

Definition sbs_block_read (bus_addr reg_addr num_bytes : Z)
  : M T (list Z) :=
  ft_i2c_write_reg_addr bus_addr reg_addr false ;;
  ft_i2c_read_bytes bus_addr num_bytes true.

Definition sbs_word_read (bus_addr reg_addr : Z) : M T Z :=
  ws <- i2c_read_words bus_addr reg_addr 1 ;;
  lift (index0 ws).

End Engine.

End ftd2xx_i2c.

(** ** The native backend: class [smbus2_i2c] *)

(** [SMBus.read_i2c_block_data(i2c_addr, register, length)] of the
    [smbus2] package, which is not part of the repository. *)
Class SMBus (B : Type) : Type := {
  read_i2c_block_data : Z -> Z -> Z -> M B (list Z)
}.

Module smbus2_i2c.

Section Native.

Context {B : Type} `{SMBus B}.

Definition i2c_read_words (bus_addr reg_addr num_words : Z)
  : M B (list Z) :=
  rd <- read_i2c_block_data (Z.shiftr bus_addr 1) reg_addr (num_words * 2) ;;
  buf <- lift (bytes rd) ;;
  lift (unpack_le_H num_words buf).

(** The result is a [bytes] object where the engine returns a list;
    both are modelled as the sequence of their byte values. *)
Definition sbs_block_read (bus_addr reg_addr num_bytes : Z)
  : M B (list Z) :=
  rd <- read_i2c_block_data (Z.shiftr bus_addr 1) reg_addr num_bytes ;;
  lift (bytes rd).

Definition sbs_word_read (bus_addr reg_addr : Z) : M B Z :=
  rd <- read_i2c_block_data (Z.shiftr bus_addr 1) reg_addr 2 ;;
  buf <- lift (bytes rd) ;;
  ws <- lift (unpack_le_H 1 buf) ;;
  lift (index0 ws).

End Native.

End smbus2_i2c.


(** ** Reading a command stream back

    The constants name four shapes of command: a pin-state command
    [CMD_SET_DATABITS_LOW value direction], a clock-out
    [CMD_DATAOUT_NEG_EDGE size data], a clock-in [CMD_DATAIN_POS_EDGE size]
    and the one-byte [CMD_SEND_IMMEDIATE].  [decode] parses a byte stream
    by these shapes, so that a data byte that happens to equal an opcode
    is not taken for a command. *)

Module Mpsse.

Inductive op : Type :=
| SetPins (value direction : Z)
| ClockOut (size data : Z)
| ClockIn (size : Z)
| SendImmediate.

Fixpoint decode (s : list Z) : option (list op) :=
  match s with
  | [] => Some []
  | c :: rest =>
      if c =? CMD_SET_DATABITS_LOW then
        match rest with
        | v :: d :: rest' => option_map (cons (SetPins v d)) (decode rest')
        | _ => None
        end
      else if c =? CMD_DATAOUT_NEG_EDGE then
        match rest with
        | n :: b :: rest' => option_map (cons (ClockOut n b)) (decode rest')
        | _ => None
        end
      else if c =? CMD_DATAIN_POS_EDGE then
        match rest with
        | n :: rest' => option_map (cons (ClockIn n)) (decode rest')
        | _ => None
        end
      else if c =? CMD_SEND_IMMEDIATE then
        option_map (cons SendImmediate) (decode rest)
      else None
  end.

(** The two bus lines as the [VAL_] and [DIR_] constants lay them out:
    bit 0 is SCL and bit 1 is SDA, in the value byte (1 = high) and in the
    direction byte (1 = driven as an output). *)
Record pins : Type := {
  scl : bool;
  sda : bool;
  scl_out : bool;
  sda_out : bool
}.

Definition pins_of (value direction : Z) : pins :=
  {| scl := Z.testbit value 0;
     sda := Z.testbit value 1;
     scl_out := Z.testbit direction 0;
     sda_out := Z.testbit direction 1 |}.

Definition pins_eqb (p q : pins) : bool :=
  Bool.eqb (scl p) (scl q) && Bool.eqb (sda p) (sda q)
  && Bool.eqb (scl_out p) (scl_out q) && Bool.eqb (sda_out p) (sda_out q).

(** The pin states of a stream made of pin-state commands only. *)
Fixpoint pin_states (ops : list op) : option (list pins) :=
  match ops with
  | [] => Some []
  | SetPins v d :: rest => option_map (cons (pins_of v d)) (pin_states rest)
  | _ :: _ => None
  end.

(** Run-length form: each maximal run of one pin state with the number of
    commands that hold it. *)
Fixpoint dwells (ps : list pins) : list (pins * nat) :=
  match ps with
  | [] => []
  | p :: rest =>
      match dwells rest with
      | (q, n) :: runs => if pins_eqb p q then (q, S n) :: runs
                          else (p, 1%nat) :: (q, n) :: runs
      | [] => [(p, 1%nat)]
      end
  end.

Definition phases (s : list Z) : option (list (pins * nat)) :=
  match decode s with
  | Some ops => option_map dwells (pin_states ops)
  | None => None
  end.

Definition is_clock_in (o : op) : bool :=
  match o with ClockIn _ => true | _ => false end.

Definition is_send_immediate (o : op) : bool :=
  match o with SendImmediate => true | _ => false end.

(** Response bytes a stream makes the bridge queue: one per clock-in
    command (of one to eight bits). *)
Definition expected_response_bytes (ops : list op) : Z :=
  Z.of_nat (length (filter is_clock_in ops)).

(** Every clock-in command has a send-immediate command after it. *)
Fixpoint flushed (ops : list op) : bool :=
  match ops with
  | [] => true
  | ClockIn _ :: rest => existsb is_send_immediate rest && flushed rest
  | _ :: rest => flushed rest
  end.

(** Bytes clocked out as whole bytes (address and register pointer). *)
Definition bytes_out (ops : list op) : list Z :=
  flat_map (fun o => match o with
                     | ClockOut n b => if n =? DATASIZE_8BITS then [b] else []
                     | _ => []
                     end) ops.

(** Handshake bits clocked out after a byte read. *)
Definition handshakes (ops : list op) : list Z :=
  flat_map (fun o => match o with
                     | ClockOut n b => if n =? DATASIZE_1BIT then [b] else []
                     | _ => []
                     end) ops.

(** Whole bytes clocked in (the data phase of a read). *)
Definition byte_reads (ops : list op) : nat :=
  length (filter (fun o => match o with
                           | ClockIn n => n =? DATASIZE_8BITS
                           | _ => false
                           end) ops).

End Mpsse.

(** ** A recording transport

    The device of a test bench: it records every call made on the handle
    and answers reads from a queue of response bytes prepared in advance.
    A read of [nbytes] returns at most that many bytes, fewer when the
    queue runs out (as the driver does on a timeout). *)

Module Mock.

Inductive event : Type :=
| EvSetLatencyTimer (ms : Z)
| EvSetBitMode (mask mode : Z)
| EvSleep (seconds : Q)
| EvWrite (s : list Z)
| EvRead (nbytes : Z).

Record dev : Type := {
  trace : list event;
  rx : list Z
}.

Definition log (e : event) (d : dev) : dev :=
  {| trace := trace d ++ [e]; rx := rx d |}.

#[export] Instance transport : Transport dev := {
  dev_setLatencyTimer ms := fun d => (Ok tt, log (EvSetLatencyTimer ms) d);
  dev_setBitMode mask mode := fun d => (Ok tt, log (EvSetBitMode mask mode) d);
  dev_write s := fun d => (Ok (Z.of_nat (length s)), log (EvWrite s) d);
  dev_read nbytes := fun d =>
    (Ok (firstn (Z.to_nat nbytes) (rx d)),
     {| trace := trace d ++ [EvRead nbytes];
        rx := skipn (Z.to_nat nbytes) (rx d) |});
  sleep seconds := fun d => (Ok tt, log (EvSleep seconds) d)
}.

(** The streams written, in order. *)
Definition writes (t : list event) : list (list Z) :=
  flat_map (fun e => match e with EvWrite s => [s] | _ => [] end) t.

(** Every stream of the trace parses as a sequence of commands. *)
Definition decodes (t : list event) : bool :=
  forallb (fun e => match e with
                    | EvWrite s => match Mpsse.decode s with
                                   | Some _ => true
                                   | None => false
                                   end
                    | _ => true
                    end) t.

(** All commands of a trace, in the order sent. *)
Definition ops_of (t : list event) : list Mpsse.op :=
  flat_map (fun e => match e with
                     | EvWrite s => match Mpsse.decode s with
                                    | Some ops => ops
                                    | None => []
                                    end
                     | _ => []
                     end) t.

(** The flush discipline of a trace: a stream with clock-in commands has
    each of them followed by a send-immediate command, and the very next
    call on the handle is a read of as many bytes as the stream has
    clock-in commands; no other read occurs. *)
Fixpoint disciplined (t : list event) : bool :=
  match t with
  | [] => true
  | EvWrite s :: rest =>
      match Mpsse.decode s with
      | None => false
      | Some ops =>
          if Mpsse.expected_response_bytes ops =? 0 then disciplined rest
          else
            Mpsse.flushed ops &&
            match rest with
            | EvRead n :: rest' =>
                (n =? Mpsse.expected_response_bytes ops) && disciplined rest'
            | _ => false
            end
      end
  | EvRead _ :: _ => false
  | _ :: rest => disciplined rest
  end.

(** A native bus of a test bench: for each 7-bit device address and
    register, the bytes the device delivers from there on. *)
Definition bus : Type := Z -> Z -> list Z.

#[export] Instance smbus : SMBus bus := {
  read_i2c_block_data i2c_addr register length := fun b =>
    (Ok (firstn (Z.to_nat length) (b i2c_addr register)), b)
}.

End Mock.

(** ** What a successful run records

    The events each method appends to the trace when no exception is
    raised, read off the method bodies. *)

Module Expect.

Import ftd2xx_i2c Mock.

Definition write_exchange (data : Z) : list event :=
  [EvWrite (write_get_ack_cmd_data data); EvRead 1].

Definition read_exchange (nack : bool) : list event :=
  [EvWrite (read_give_ack_cmd_data nack); EvRead 1].

Definition read_loop (positions : list Z) (num_bytes : Z) : list event :=
  flat_map (fun i => read_exchange (i =? num_bytes - 1)) positions.

Definition stop_events (stop : bool) : list event :=
  if stop then [EvWrite stop_cmd_data] else [].

Definition write_reg_addr (bus_addr reg_addr : Z) (stop : bool) : list event :=
  [EvWrite start_cmd_data]
    ++ write_exchange (dev_addr_byte bus_addr false)
    ++ write_exchange reg_addr
    ++ stop_events stop.

Definition read_bytes (bus_addr num_bytes : Z) (stop : bool) : list event :=
  [EvWrite start_cmd_data]
    ++ write_exchange (dev_addr_byte bus_addr true)
    ++ read_loop (range num_bytes) num_bytes
    ++ stop_events stop.

(** A method that only ever extends the trace, by events that keep the
    flush discipline, whatever the device answers and whether or not it
    raises. *)
Definition tidy {A} (m : M dev A) : Prop :=
  forall d, exists delta,
    trace (snd (m d)) = trace d ++ delta /\ disciplined delta = true.

(** The spec's words for the decoding: consecutive bytes paired
    little-endian, in transfer order. *)
Fixpoint words_le (raw : list Z) : list Z :=
  match raw with
  | lo :: hi :: rest => Z.lor lo (Z.shiftl hi 8) :: words_le rest
  | _ => []
  end.

(** The spec's formula for the divisor, with [round] to the nearest
    integer (half to even) on the exact quotient. *)
Definition py_round (q : Q) : Z :=
  let n := Qnum q in
  let dn := Z.pos (Qden q) in
  let fl := n / dn in
  let twice_rem := 2 * (n mod dn) in
  if twice_rem <? dn then fl
  else if dn <? twice_rem then fl + 1
  else if Z.even fl then fl else fl + 1.

Definition spec_div (master_clock target_freq : Z) : Z :=
  py_round ((master_clock # 1) / ((target_freq # 1) * (2 # 1)))%Q - 1.

End Expect.

(** ** Further observations of a trace *)

Module Observe.

Import ftd2xx_i2c Mock.

(** How many of the streams written are the STOP stream, and how many the
    START stream. *)
Definition stops (t : list event) : nat :=
  count_occ (list_eq_dec Z.eq_dec) (writes t) stop_cmd_data.

Definition starts (t : list event) : nat :=
  count_occ (list_eq_dec Z.eq_dec) (writes t) start_cmd_data.

(** A method that only ever extends the trace, by events that satisfy
    [P], whatever the device answers and whether or not it raises. *)
Definition keeps {A} (P : list event -> Prop) (m : M dev A) : Prop :=
  forall d, exists delta, trace (snd (m d)) = trace d ++ delta /\ P delta.

(** The pin state a stream leaves behind, from the state [cur] before it
    ([None]: not set by this stream yet). *)
Fixpoint final_pins (cur : option Mpsse.pins) (ops : list Mpsse.op)
  : option Mpsse.pins :=
  match ops with
  | [] => cur
  | Mpsse.SetPins v d :: rest => final_pins (Some (Mpsse.pins_of v d)) rest
  | _ :: rest => final_pins cur rest
  end.

(** The electrical discipline of a stream.  Every clocking command comes
    after a pin-state command of the same stream that holds SCL low and
    driven.  A clock-in finds SDA turned to an input.  A whole byte is
    clocked out with SDA driven.  A handshake bit is either ACK, value
    [DATA_SEND_ACK] with SDA driven, or NACK, value [DATA_SEND_NACK] with
    SDA left as an input. *)
Fixpoint line_safe (cur : option Mpsse.pins) (ops : list Mpsse.op) : bool :=
  match ops with
  | [] => true
  | Mpsse.SetPins v d :: rest => line_safe (Some (Mpsse.pins_of v d)) rest
  | Mpsse.ClockOut n b :: rest =>
      match cur with
      | Some p =>
          Mpsse.scl_out p && negb (Mpsse.scl p)
          && (if n =? DATASIZE_8BITS then Mpsse.sda_out p
              else if n =? DATASIZE_1BIT then
                     (Mpsse.sda_out p && (b =? DATA_SEND_ACK))
                     || (negb (Mpsse.sda_out p) && (b =? DATA_SEND_NACK))
                   else false)
          && line_safe cur rest
      | None => false
      end
  | Mpsse.ClockIn n :: rest =>
      match cur with
      | Some p =>
          Mpsse.scl_out p && negb (Mpsse.scl p) && negb (Mpsse.sda_out p)
          && line_safe cur rest
      | None => false
      end
  | Mpsse.SendImmediate :: rest => line_safe cur rest
  end.

(** A stream that parses, keeps the electrical discipline and, unless it
    is the STOP stream, ends with SCL held low by the master. *)
Definition stream_safe (s : list Z) : bool :=
  match Mpsse.decode s with
  | Some ops =>
      line_safe None ops
      && match final_pins None ops with
         | Some p =>
             if list_eq_dec Z.eq_dec s stop_cmd_data
             then Mpsse.scl p && Mpsse.sda p
                  && negb (Mpsse.scl_out p) && negb (Mpsse.sda_out p)
             else Mpsse.scl_out p && negb (Mpsse.scl p)
         | None => false
         end
  | None => false
  end.

Definition all_streams_safe (t : list event) : Prop :=
  forallb stream_safe (writes t) = true.

(** One of the first three responses of the queue (the acknowledge bits
    of the write address, the register pointer and the read address) has
    bit 0 set. *)
Definition nack_within3 (q : list Z) : Prop :=
  exists k : nat,
    (k < 3)%nat /\ (k < length q)%nat /\ Z.testbit (nth k q 0) 0 = true.

(** What the queue [q] must have looked like for a read that needs [need]
    data bytes to end with the result [r]. *)
Definition explained {A} (r : result A) (q : list Z) (need : nat) : Prop :=
  match r with
  | Ok _ =>
      (3 + need <= length q)%nat
      /\ forall k : nat, (k < 3)%nat -> Z.testbit (nth k q 0) 0 = false
  | Raise IOError => nack_within3 q
  | Raise IndexError => (length q < 3 + need)%nat
  | Raise _ => False
  end.

(** The faults of the bus itself: a refused byte or a silent device. *)
Definition benign {A} (r : result A) : Prop :=
  match r with
  | Ok _ => True
  | Raise IOError => True
  | Raise IndexError => True
  | Raise _ => False
  end.


End Observe.

(** ** The register map: [max1730x_regs.py] *)

Import String.StringSyntax Ascii.AsciiSyntax.
Delimit Scope string_scope with string.
Delimit Scope char_scope with char.

Module max1730x_regs.

Import String.
#[local] Open Scope string_scope.

Definition M5_DEV_ADDR : Z := 0x6C.

Definition SBS_NV_DEV_ADDR : Z := 0x16.

(** A page of 16 registers; a name of [None] marks a reserved register. *)
Record RegisterPage : Type := mkRegisterPage {
  dev_addr : Z;
  base_addr : Z;
  reg_names : list (option string)
}.

(** An SBS register: one word when [block_size <= 0], else a block of
    [block_size] bytes.  The fields [dev_addr] and [base_addr] of the
    source carry the prefix [sbs_] here. *)
Record SBS_Register : Type := mkSBS_Register {
  sbs_dev_addr : Z;
  sbs_base_addr : Z;
  block_size : Z;
  reg_name : string
}.

Definition M5_DATABLOCK_000 : RegisterPage :=
  mkRegisterPage M5_DEV_ADDR 0x000
    [Some "Status"; Some "VAlrtTh"; Some "TAlrtTh"; Some "SAlrtTh";
     Some "AtRate"; Some "RepCap"; Some "RepSOC"; Some "Age";
     Some "MaxMinVolt"; Some "MaxMinTemp"; Some "MaxMinCurr"; Some "Config";
     Some "QResidual"; Some "MixSOC"; Some "AvSOC"; Some "MiscCfg"].

Definition M5_DATABLOCK_010 : RegisterPage :=
  mkRegisterPage M5_DEV_ADDR 0x010
    [Some "FullCapRep"; Some "TTE"; Some "VCellRep"; Some "FullSocThr";
     Some "RSlow"; Some "RFast"; Some "AvgTA"; Some "Cycles";
     Some "DesignCap"; Some "AvgVCell"; Some "VCell"; Some "Temp";
     Some "Current"; Some "AvgCurrent"; Some "IChgTerm"; Some "AvCap"].

Definition M5_DATABLOCK_020 : RegisterPage :=
  mkRegisterPage M5_DEV_ADDR 0x020
    [Some "TTF"; Some "DevName"; Some "CurrRep"; Some "FullCapNom";
     None; None; None; Some "AIN0";
     Some "ChargingCurrent"; Some "FilterCfg"; Some "ChargingVoltage"; Some "MixCap";
     None; None; None; None].

Definition M5_DATABLOCK_030 : RegisterPage :=
  mkRegisterPage M5_DEV_ADDR 0x030
    [None; None; Some "QRTable20"; None;
     Some "DieTemp"; Some "FullCap"; Some "IAvgEmpty"; None;
     None; Some "FStat2"; Some "VEmpty"; None;
     None; Some "FStat"; Some "Timer"; Some "Vrelax"].

Definition M5_DATABLOCK_040 : RegisterPage :=
  mkRegisterPage M5_DEV_ADDR 0x040
    [Some "AvgDieTemp"; None; Some "QRTable30"; None;
     None; Some "dQAcc"; Some "dPAcc"; None;
     None; Some "ProtTmrStat"; Some "VFRemCap"; None;
     None; Some "QH"; None; None].

Definition M5_DATABLOCK_0A0 : RegisterPage :=
  mkRegisterPage M5_DEV_ADDR 0x0A0
    [Some "RelaxCfg"; Some "LearnCfg"; None; None;
     Some "MaxPeakPower"; Some "SusPeakPower"; Some "PackResistance"; Some "SysResistance";
     Some "MinSysVoltage"; Some "MPPCurrent"; Some "SPPCurrent"; Some "Config2";
     Some "IAlrtTh"; Some "MinVolt"; Some "MinCurr"; None].

Definition M5_DATABLOCK_0B0 : RegisterPage :=
  mkRegisterPage M5_DEV_ADDR 0x0B0
    [Some "Status2"; Some "Power"; Some "VRipple"; Some "AvgPower";
     Some "ReturnPatch"; Some "TTFCfg"; Some "CVMixCap"; Some "CVHalfTime";
     Some "CGTempCo"; Some "AgeForecast"; None; Some "FOTPStat";
     None; None; Some "TimerH"; None].

Definition M5_DATABLOCK_0D0 : RegisterPage :=
  mkRegisterPage M5_DEV_ADDR 0x0D0
    [Some "SOCHold"; None; None; None;
     Some "AvgCell1"; None; None; Some "Status";
     Some "CELL1"; Some "ProtStatus"; None; Some "ModelCfg";
     Some "AtQResidual"; Some "AtTTE"; Some "AtAvSOC"; Some "AtAvCap"].

Definition M5_DATABLOCK_0F0 : RegisterPage :=
  mkRegisterPage M5_DEV_ADDR 0x0F0
    [None; None; None; None;
     None; Some "HConfig2"; None; None;
     None; None; None; Some "VFOCV";
     None; None; None; Some "VFSOC"].

Definition M5_NVBLOCK_180 : RegisterPage :=
  mkRegisterPage SBS_NV_DEV_ADDR 0x180
    [Some "nCAPTable0"; Some "nCAPTable1"; Some "nCAPTable2"; Some "nCAPTable3";
     Some "nCAPTable4"; Some "nCAPTable5"; Some "nCAPTable6"; Some "nCAPTable7";
     Some "nCAPTable8"; Some "nCAPTable9"; Some "nCAPTable10"; Some "nCAPTable11";
     Some "nVAlrtTh"; Some "nTAlrtTh"; Some "nIAlrtTh"; Some "nSAlrtTh"].

Definition M5_NVBLOCK_190 : RegisterPage :=
  mkRegisterPage SBS_NV_DEV_ADDR 0x190
    [Some "nOCVTable0"; Some "nOCVTable1"; Some "nOCVTable2"; Some "nOCVTable3";
     Some "nOCVTable4"; Some "nOCVTable5"; Some "nOCVTable6"; Some "nOCVTable7";
     Some "nOCVTable8"; Some "nOCVTable9"; Some "nOCVTable10"; Some "nOCVTable11";
     Some "nIChgTerm"; Some "nFilterCfg"; Some "nVEmpty"; Some "nLearnCfg"].

Definition CFG_NVBLOCK_1A0 : RegisterPage :=
  mkRegisterPage SBS_NV_DEV_ADDR 0x1A0
    [Some "nQRTable00"; Some "nQRTable10"; Some "nQRTable20"; Some "nQRTable30";
     Some "nCycles"; Some "nFullCapNom"; Some "nRComp0"; Some "nTempCo";
     Some "nBattStatus"; Some "nFullCapRep"; Some "nVoltTemp"; Some "nMaxMinCurr";
     Some "nMaxMinVolt"; Some "nMaxMinTemp"; Some "nFullCapFltr"; Some "nTimerH"].

Definition CFG_NVBLOCK_1B0 : RegisterPage :=
  mkRegisterPage SBS_NV_DEV_ADDR 0x1B0
    [Some "nCONFIG"; Some "nRippleCfg"; Some "nMiscCFG"; Some "nDesignCap";
     Some "nSBSCFG"; Some "nPACKCFG"; Some "nRelaxCFG"; Some "nConvgCFG";
     Some "nNVCFG0"; Some "nNVCFG1"; Some "nNVCFG2"; Some "nHibCFG";
     Some "nROMID0"; Some "nROMID1"; Some "nROMID2"; Some "nROMID3"].

Definition CFG_NVBLOCK_1C0 : RegisterPage :=
  mkRegisterPage SBS_NV_DEV_ADDR 0x1C0
    [None; None; None; None;
     Some "nRGain"; Some "nPackResistance"; Some "nFullSOCThr"; Some "nTTFCFG";
     Some "nCGAIN"; Some "nTCurve"; Some "nThermcfg"; Some "nTOFF";
     Some "nManfctrName"; Some "nManfctrName1"; Some "nManfctrName2"; Some "nRSense"].

Definition PROT_NVBLOCK_1D0 : RegisterPage :=
  mkRegisterPage SBS_NV_DEV_ADDR 0x1D0
    [Some "nVPrtTh1"; Some "nTPrtTh1"; Some "nTPrtTh3"; Some "nIPrtTh1";
     Some "nVPrtTh2"; Some "nTPrtTh2"; Some "nProtMiscTh"; Some "nProtCfg";
     Some "nJEITAC"; Some "nJEITAV"; Some "nJEITACfg"; Some "nStepChg";
     Some "nDelayCfg"; Some "nODSCTh"; Some "nODSCCfg"; Some "nCheckSum"].

Definition USER_NVBLOCK_1E0 : RegisterPage :=
  mkRegisterPage SBS_NV_DEV_ADDR 0x1E0
    [Some "nDPLimit"; Some "nScOcvLim"; Some "nAgeFcCfg"; Some "nDesignVoltage";
     Some "nPackCfg2"; Some "nRFastVShdn"; Some "nManfctrDate"; Some "nFirstUsed";
     Some "nSerialNumber0"; Some "nSerialNumber1"; Some "nSerialNumber2"; Some "nDeviceName0";
     Some "nDeviceName1"; Some "nDeviceName2"; Some "nDeviceName3"; Some "nDeviceName4"].

Definition SBS_REGISTERS : list SBS_Register :=
  [mkSBS_Register SBS_NV_DEV_ADDR 0x100 0 "sManfctAccess";
   mkSBS_Register SBS_NV_DEV_ADDR 0x101 0 "sRemCapAlarm";
   mkSBS_Register SBS_NV_DEV_ADDR 0x102 0 "sRemTimeAlarm";
   mkSBS_Register SBS_NV_DEV_ADDR 0x103 0 "sBatteryMode";
   mkSBS_Register SBS_NV_DEV_ADDR 0x104 0 "sAtRate";
   mkSBS_Register SBS_NV_DEV_ADDR 0x106 0 "sAtTTE";
   mkSBS_Register SBS_NV_DEV_ADDR 0x107 0 "sAtRateOK";
   mkSBS_Register SBS_NV_DEV_ADDR 0x108 0 "sTemperature";
   mkSBS_Register SBS_NV_DEV_ADDR 0x109 0 "sPackVoltage";
   mkSBS_Register SBS_NV_DEV_ADDR 0x10A 0 "sCurrent";
   mkSBS_Register SBS_NV_DEV_ADDR 0x10B 0 "sAvgCurrent";
   mkSBS_Register SBS_NV_DEV_ADDR 0x10C 0 "sMaxError";
   mkSBS_Register SBS_NV_DEV_ADDR 0x10D 0 "sRelSOC";
   mkSBS_Register SBS_NV_DEV_ADDR 0x10E 0 "sAbsSOC";
   mkSBS_Register SBS_NV_DEV_ADDR 0x10F 0 "sRemCap";
   mkSBS_Register SBS_NV_DEV_ADDR 0x110 0 "sFullCap";
   mkSBS_Register SBS_NV_DEV_ADDR 0x111 0 "sRunTTE";
   mkSBS_Register SBS_NV_DEV_ADDR 0x112 0 "sAvgTTE";
   mkSBS_Register SBS_NV_DEV_ADDR 0x113 0 "sAvgTTF";
   mkSBS_Register SBS_NV_DEV_ADDR 0x114 0 "sChargingCurrent";
   mkSBS_Register SBS_NV_DEV_ADDR 0x115 0 "sChargingVoltage";
   mkSBS_Register SBS_NV_DEV_ADDR 0x116 0 "sBatteryStatus";
   mkSBS_Register SBS_NV_DEV_ADDR 0x117 0 "sCycles";
   mkSBS_Register SBS_NV_DEV_ADDR 0x118 0 "sDesignCap";
   mkSBS_Register SBS_NV_DEV_ADDR 0x119 0 "sDesignVolt";
   mkSBS_Register SBS_NV_DEV_ADDR 0x11A 0 "sSpecInfo";
   mkSBS_Register SBS_NV_DEV_ADDR 0x11B 0 "sManfctDate";
   mkSBS_Register SBS_NV_DEV_ADDR 0x11C 6 "sSerialNumber";
   mkSBS_Register SBS_NV_DEV_ADDR 0x120 5 "sManfctName";
   mkSBS_Register SBS_NV_DEV_ADDR 0x121 5 "sDeviceName";
   mkSBS_Register SBS_NV_DEV_ADDR 0x122 4 "sDevChemistry";
   mkSBS_Register SBS_NV_DEV_ADDR 0x123 9 "sManfctData";
   mkSBS_Register SBS_NV_DEV_ADDR 0x134 0 "sTemp1";
   mkSBS_Register SBS_NV_DEV_ADDR 0x135 0 "sIntTemp";
   mkSBS_Register SBS_NV_DEV_ADDR 0x136 0 "sFirstUsed";
   mkSBS_Register SBS_NV_DEV_ADDR 0x137 0 "sAvgTemp1";
   mkSBS_Register SBS_NV_DEV_ADDR 0x138 0 "sAvgIntTemp";
   mkSBS_Register SBS_NV_DEV_ADDR 0x13F 0 "sCell1";
   mkSBS_Register SBS_NV_DEV_ADDR 0x14F 0 "sAvgCell1";
   mkSBS_Register SBS_NV_DEV_ADDR 0x167 0 "sAvCap";
   mkSBS_Register SBS_NV_DEV_ADDR 0x168 0 "sMixCap"].

Definition REGISTER_PAGES : list RegisterPage :=
  [M5_DATABLOCK_000; M5_DATABLOCK_010; M5_DATABLOCK_020; M5_DATABLOCK_030;
   M5_DATABLOCK_040; M5_DATABLOCK_0A0; M5_DATABLOCK_0B0; M5_DATABLOCK_0D0;
   M5_DATABLOCK_0F0; M5_NVBLOCK_180; M5_NVBLOCK_190; CFG_NVBLOCK_1A0;
   CFG_NVBLOCK_1B0; CFG_NVBLOCK_1C0; PROT_NVBLOCK_1D0; USER_NVBLOCK_1E0].

End max1730x_regs.

(** ** The interface [I_I2C] and the logger: [i2c_iface.py],
    [max1730x_logger.py] *)

Module i2c_iface.

(** The three reads a backend offers, over the state of its bus. *)
Class I_I2C (S : Type) : Type := {
  i2c_read_words : Z -> Z -> Z -> M S (list Z);
  sbs_block_read : Z -> Z -> Z -> M S (list Z);
  sbs_word_read : Z -> Z -> M S Z
}.

#[export] Instance ftd2xx_backend (T : Type) (TT : Transport T) : I_I2C T := {
  i2c_read_words := ftd2xx_i2c.i2c_read_words;
  sbs_block_read := ftd2xx_i2c.sbs_block_read;
  sbs_word_read := ftd2xx_i2c.sbs_word_read
}.

#[export] Instance smbus2_backend (B : Type) (NB : SMBus B) : I_I2C B := {
  i2c_read_words := smbus2_i2c.i2c_read_words;
  sbs_block_read := smbus2_i2c.sbs_block_read;
  sbs_word_read := smbus2_i2c.sbs_word_read
}.

End i2c_iface.

Module max1730x_logger.

Import String max1730x_regs i2c_iface.

(** [str(n)] of an integer: its decimal digits, with a minus sign when
    negative. *)
Definition py_str (n : Z) : string :=
  DecimalString.NilZero.string_of_int (Z.to_int n).

Definition hex_digit (v : Z) : Ascii.ascii :=
  match v with
  | 0 => "0" | 1 => "1" | 2 => "2" | 3 => "3"
  | 4 => "4" | 5 => "5" | 6 => "6" | 7 => "7"
  | 8 => "8" | 9 => "9" | 10 => "A" | 11 => "B"
  | 12 => "C" | 13 => "D" | 14 => "E" | _ => "F"
  end%char.

(** The digits of [n > 0] in base 16, most significant first, in front of
    [acc]; [fuel] bounds the number of digits. *)
Fixpoint hex_digits (fuel : nat) (n : Z) (acc : string) : string :=
  match fuel with
  | O => acc
  | S fuel' =>
      if n =? 0 then acc
      else hex_digits fuel' (n / 16) (String (hex_digit (n mod 16)) acc)
  end.

Definition hex_upper (n : Z) : string :=
  if n =? 0 then "0"%string
  else hex_digits (S (Z.to_nat (Z.log2 n))) n EmptyString.

Fixpoint zeros (k : nat) : string :=
  match k with
  | O => EmptyString
  | S k' => String "0"%char (zeros k')
  end.

(** ['{:0wX}'.format(x)]: upper-case hexadecimal, filled with zeros after
    the sign up to [width] characters, longer when the value needs it. *)
Definition format_0X (width : nat) (x : Z) : string :=
  let digits := hex_upper (Z.abs x) in
  if x <? 0 then
    (String "-"%char (zeros (width - 1 - String.length digits) ++ digits))%string
  else (zeros (width - String.length digits) ++ digits)%string.

Section Tables.

(** The module globals [REGISTER_PAGES] and [SBS_REGISTERS]. *)
Variable pages : list RegisterPage.
Variable sbs_registers : list SBS_Register.

(** The inner loop of [get_header_fields] over [enumerate(reg_names)],
    from index [idx] on. *)
Fixpoint page_header_fields (keep_rsvd : bool) (base : Z) (idx : Z)
  (names : list (option string)) : list string :=
  match names with
  | [] => []
  | r :: rest =>
      (match r with
       | None =>
           if keep_rsvd
           then [("RSVD_" ++ format_0X 3 (base + idx))%string]
           else []
       | Some name => [(name ++ "_" ++ format_0X 3 (base + idx))%string]
       end)
      ++ page_header_fields keep_rsvd base (idx + 1) rest
  end.

Definition get_header_fields_of (keep_rsvd : bool) : list string :=
  let hdrfields := ["Timestamp"%string] in
  let hdrfields :=
    hdrfields
    ++ flat_map (fun page =>
                   page_header_fields keep_rsvd (base_addr page) 0
                     (reg_names page))
         pages in
  let hdrfields :=
    hdrfields
    ++ map (fun sbs =>
              (reg_name sbs ++ "_" ++ format_0X 3 (sbs_base_addr sbs))%string)
         sbs_registers in
  hdrfields.

(** [['{:04X}'.format(w) for idx,w in enumerate(reg_data)
      if page.reg_names[idx] != None]], from index [idx] on: indexing the
    names raises [IndexError] past their end. *)
Fixpoint named_words (names : list (option string)) (idx : nat)
  (reg_data : list Z) : result (list string) :=
  match reg_data with
  | [] => Ok []
  | w :: rest =>
      match nth_error names idx with
      | None => Raise IndexError
      | Some r =>
          match named_words names (S idx) rest with
          | Ok fields =>
              Ok (match r with
                  | Some _ => format_0X 4 w :: fields
                  | None => fields
                  end)
          | Raise e => Raise e
          end
      end
  end.

Section Bus.

Context {S : Type} `{I_I2C S}.

(** The body of the first loop of [start_logging]'s [try] block, for one
    page. *)
Definition log_page (keep_rsvd : bool) (page : RegisterPage)
  (row_data : list string) : M S (list string) :=
  reg_data <- i2c_read_words (dev_addr page) (Z.land (base_addr page) 0xFF) 16 ;;
  if keep_rsvd then
    ret (row_data ++ map (format_0X 4) reg_data)
  else
    fields <- lift (named_words (reg_names page) 0 reg_data) ;;
    ret (row_data ++ fields).

(** The body of the second loop, for one SBS register. *)
Definition log_sbs (sbs : SBS_Register) (row_data : list string)
  : M S (list string) :=
  if 0 <? block_size sbs then
    reg_data <- sbs_block_read (sbs_dev_addr sbs)
                  (Z.land (sbs_base_addr sbs) 0xFF) (block_size sbs) ;;
    ret (row_data
         ++ [String.concat EmptyString (map (format_0X 2) reg_data)])
  else
    w <- sbs_word_read (sbs_dev_addr sbs) (Z.land (sbs_base_addr sbs) 0xFF) ;;
    ret (row_data ++ [format_0X 4 w]).

(** The part of the loop body of [start_logging] that builds [row_data],
    from the time stamp to the last SBS register (lines 93 to 111);
    [now] is [int(now_time)].  The row is what [csv_wr.writerow] then
    receives; an exception leaves the [try] block before that call. *)
Definition collect_row_of (keep_rsvd : bool) (now : Z) : M S (list string) :=
  let row_data := [py_str now] in
  row_data <- for_in pages (log_page keep_rsvd) row_data ;;
  row_data <- for_in sbs_registers log_sbs row_data ;;
  ret row_data.

End Bus.

End Tables.

Definition get_header_fields (keep_rsvd : bool) : list string :=
  get_header_fields_of REGISTER_PAGES SBS_REGISTERS keep_rsvd.

Definition collect_row {S : Type} `{I_I2C S} (keep_rsvd : bool) (now : Z)
  : M S (list string) :=
  collect_row_of REGISTER_PAGES SBS_REGISTERS keep_rsvd now.

(** Reading a field back: the value of a string of upper-case hexadecimal
    digits, and the bytes of a string of two-digit pairs. *)
Definition hex_value (c : Ascii.ascii) : option Z :=
  (if Ascii.eqb c "0" then Some 0 else if Ascii.eqb c "1" then Some 1
   else if Ascii.eqb c "2" then Some 2 else if Ascii.eqb c "3" then Some 3
   else if Ascii.eqb c "4" then Some 4 else if Ascii.eqb c "5" then Some 5
   else if Ascii.eqb c "6" then Some 6 else if Ascii.eqb c "7" then Some 7
   else if Ascii.eqb c "8" then Some 8 else if Ascii.eqb c "9" then Some 9
   else if Ascii.eqb c "A" then Some 10 else if Ascii.eqb c "B" then Some 11
   else if Ascii.eqb c "C" then Some 12 else if Ascii.eqb c "D" then Some 13
   else if Ascii.eqb c "E" then Some 14 else if Ascii.eqb c "F" then Some 15
   else None)%char.

Fixpoint parse_hex_from (s : string) (acc : Z) : option Z :=
  match s with
  | EmptyString => Some acc
  | String c s' =>
      match hex_value c with
      | Some v => parse_hex_from s' (16 * acc + v)
      | None => None
      end
  end.

Definition parse_hex (s : string) : option Z :=
  match s with
  | EmptyString => None
  | _ => parse_hex_from s 0
  end.

Fixpoint parse_block (s : string) : option (list Z) :=
  match s with
  | EmptyString => Some []
  | String c1 (String c2 s') =>
      match hex_value c1, hex_value c2, parse_block s' with
      | Some hi, Some lo, Some rest => Some (16 * hi + lo :: rest)
      | _, _, _ => None
      end
  | String _ EmptyString => None
  end.




(** The requests a logger makes, for a bus that records them: the
    operation with its arguments. *)
Inductive request : Type :=
| ReadWords (bus_addr reg_addr num_words : Z)
| BlockRead (bus_addr reg_addr num_bytes : Z)
| WordRead (bus_addr reg_addr : Z).

(** A bus that records each request and answers it in full with zeros. *)
#[export] Instance recorder : I_I2C (list request) := {
  i2c_read_words bus_addr reg_addr num_words := fun log =>
    (Ok (repeat 0 (Z.to_nat num_words)),
     log ++ [ReadWords bus_addr reg_addr num_words]);
  sbs_block_read bus_addr reg_addr num_bytes := fun log =>
    (Ok (repeat 0 (Z.to_nat num_bytes)),
     log ++ [BlockRead bus_addr reg_addr num_bytes]);
  sbs_word_read bus_addr reg_addr := fun log =>
    (Ok 0, log ++ [WordRead bus_addr reg_addr])
}.


End max1730x_logger.

(** * Properties *)

Import ftd2xx_i2c Mock Expect Observe.

(** ** The model runs

    Three acknowledge responses (bit 0 clear) and then the data bytes, as
    a device that accepts both address bytes and the register pointer
    queues them. *)

Example block_read_of_six :
  sbs_block_read 0x16 0x20 6
    {| trace := []; rx := [0; 0; 0; 0x11; 0x22; 0x33; 0x44; 0x55; 0x66; 0x77] |}
  = (Ok [0x11; 0x22; 0x33; 0x44; 0x55; 0x66],
     {| trace :=
          [EvWrite start_cmd_data;
           EvWrite (write_get_ack_cmd_data 0x16); EvRead 1;
           EvWrite (write_get_ack_cmd_data 0x20); EvRead 1;
           EvWrite start_cmd_data;
           EvWrite (write_get_ack_cmd_data 0x17); EvRead 1;
           EvWrite (read_give_ack_cmd_data false); EvRead 1;
           EvWrite (read_give_ack_cmd_data false); EvRead 1;
           EvWrite (read_give_ack_cmd_data false); EvRead 1;
           EvWrite (read_give_ack_cmd_data false); EvRead 1;
           EvWrite (read_give_ack_cmd_data false); EvRead 1;
           EvWrite (read_give_ack_cmd_data true); EvRead 1;
           EvWrite stop_cmd_data];
        rx := [0x77] |}).
Proof. reflexivity. Qed.

Example word_read_twice :
  let d := {| trace := []; rx := [0; 0; 0; 0xCD; 0xAB; 0; 0; 0; 0xCD; 0xAB] |} in
  let r1 := sbs_word_read 0x16 0x09 d in
  let r2 := sbs_word_read 0x16 0x09 (snd r1) in
  fst r1 = Ok 0xABCD /\ fst r2 = Ok 0xABCD.
Proof. split; reflexivity. Qed.

Example register_pointer_out_of_range :
  fst (i2c_read_words 0x6C 0x100 1 {| trace := []; rx := [0; 0; 0; 1; 2] |})
  = Raise ValueError.
Proof. reflexivity. Qed.

Example device_runs_dry :
  fst (sbs_block_read 0x6C 0x00 4 {| trace := []; rx := [0; 0; 0; 1; 2] |})
  = Raise IndexError.
Proof. reflexivity. Qed.

Example read_write_get_ack_stream :
  write_get_ack_cmd_data 0xD8
  = [0x80; 0x02; 0x13; 0x13; 0x07; 0xD8; 0x80; 0x00; 0x11; 0x22; 0x00; 0x87].
Proof. reflexivity. Qed.

(** ** Bytes and bits *)

#[local] Arguments Z.testbit : simpl never.

Lemma is_byte_iff (b : Z) : is_byte b = true <-> 0 <= b < 256.
Proof. unfold is_byte. rewrite andb_true_iff, Z.leb_le, Z.ltb_lt. tauto. Qed.

Lemma truthy_bit0 (r : Z) : truthy (Z.land r 0x1) = Z.testbit r 0.
Proof.
  unfold truthy.
  change 1 with (Z.ones 1). rewrite Z.land_ones by lia.
  rewrite Z.bit0_odd, <- Z.negb_even.
  rewrite Zeven_mod. change (2 ^ 1) with 2. reflexivity.
Qed.

Lemma land_low8 (x : Z) : Z.land x 0xFF = x -> 0 <= x < 256.
Proof.
  intros E. change 255 with (Z.ones 8) in E. rewrite Z.land_ones in E by lia.
  rewrite <- E. apply Z.mod_pos_bound. reflexivity.
Qed.

Lemma dev_addr_byte_spec (a : Z) (r : bool) :
  dev_addr_byte a r = Z.lor (Z.land a 0xFE) (if r then 1 else 0).
Proof. unfold dev_addr_byte. destruct r; [reflexivity | now rewrite Z.lor_0_r]. Qed.

Lemma dev_addr_byte_is_byte (a : Z) (r : bool) : is_byte (dev_addr_byte a r) = true.
Proof.
  apply is_byte_iff, land_low8. rewrite dev_addr_byte_spec.
  rewrite Z.land_lor_distr_l, <- Z.land_assoc.
  destruct r; reflexivity.
Qed.

Lemma dev_addr_byte_lsb (a a' : Z) (r : bool) :
  Z.shiftr a 1 = Z.shiftr a' 1 -> dev_addr_byte a r = dev_addr_byte a' r.
Proof.
  intros E. rewrite !dev_addr_byte_spec. f_equal.
  apply Z.bits_inj'. intros n Hn. rewrite !Z.land_spec.
  destruct (Z.eq_dec n 0) as [-> | Hn0].
  - change (Z.testbit 254 0) with false. now rewrite !andb_false_r.
  - f_equal.
    replace n with (n - 1 + 1) by lia.
    rewrite <- !Z.shiftr_spec by lia. now rewrite E.
Qed.

(** ** The primitives on the recording transport *)

Lemma ft_write_mock (data : list Z) (d : dev) :
  ft_write data d =
  if is_bytes data then (Ok (Z.of_nat (length data)), log (EvWrite data) d)
  else (Raise ValueError, d).
Proof.
  unfold ft_write, bind, lift, bytes. destruct (is_bytes data); reflexivity.
Qed.

Lemma write_get_ack_cmd_is_bytes (data : Z) :
  is_bytes (write_get_ack_cmd_data data) = is_byte data.
Proof.
  unfold write_get_ack_cmd_data, is_bytes. simpl.
  destruct (is_byte data); reflexivity.
Qed.

Lemma read_give_ack_cmd_is_bytes (nack : bool) :
  is_bytes (read_give_ack_cmd_data nack) = true.
Proof. destruct nack; reflexivity. Qed.

Lemma ft_i2c_start_mock (d : dev) :
  ft_i2c_start d = (Ok tt, log (EvWrite start_cmd_data) d).
Proof. unfold ft_i2c_start, bind. rewrite ft_write_mock. reflexivity. Qed.

Lemma ft_i2c_stop_mock (d : dev) :
  ft_i2c_stop d = (Ok tt, log (EvWrite stop_cmd_data) d).
Proof. unfold ft_i2c_stop, bind. rewrite ft_write_mock. reflexivity. Qed.

Lemma ft_i2c_write_get_ack_mock (data : Z) (d : dev) :
  ft_i2c_write_get_ack data d =
  if is_byte data then
    match rx d with
    | r :: rest =>
        (if Z.testbit r 0 then Raise IOError else Ok tt,
         {| trace := trace d ++ write_exchange data; rx := rest |})
    | [] =>
        (Raise IndexError,
         {| trace := trace d ++ write_exchange data; rx := [] |})
    end
  else (Raise ValueError, d).
Proof.
  unfold ft_i2c_write_get_ack, bind. rewrite ft_write_mock.
  rewrite write_get_ack_cmd_is_bytes. destruct (is_byte data); [|reflexivity].
  unfold ft_read, lift, write_exchange. simpl.
  rewrite <- app_assoc. simpl.
  destruct (rx d) as [|r rest]; simpl; [reflexivity|].
  rewrite truthy_bit0, Z.bit0_odd. unfold raise, ret.
  destruct (Z.odd r); reflexivity.
Qed.

Lemma ft_i2c_read_give_ack_mock (nack : bool) (d : dev) :
  ft_i2c_read_give_ack nack d =
  (index0 (rx d),
   {| trace := trace d ++ read_exchange nack; rx := tl (rx d) |}).
Proof.
  unfold ft_i2c_read_give_ack, bind. rewrite ft_write_mock.
  rewrite read_give_ack_cmd_is_bytes.
  unfold ft_read, lift, read_exchange. simpl.
  rewrite <- app_assoc. simpl.
  destruct (rx d) as [|r rest]; reflexivity.
Qed.

Lemma ft_i2c_dev_addr_mock (bus_addr : Z) (read : bool) (d : dev) :
  ft_i2c_dev_addr bus_addr read d =
  match rx d with
  | r :: rest =>
      (if Z.testbit r 0 then Raise IOError else Ok tt,
       {| trace := trace d ++ write_exchange (dev_addr_byte bus_addr read);
          rx := rest |})
  | [] =>
      (Raise IndexError,
       {| trace := trace d ++ write_exchange (dev_addr_byte bus_addr read);
          rx := [] |})
  end.
Proof.
  unfold ft_i2c_dev_addr. rewrite ft_i2c_write_get_ack_mock.
  now rewrite dev_addr_byte_is_byte.
Qed.

(** ** The composed transactions on the recording transport *)

Lemma range_length (n : Z) : length (range n) = Z.to_nat n.
Proof. unfold range. now rewrite length_map, length_seq. Qed.

Lemma read_loop_mock (num_bytes : Z) (tail : list Z) :
  forall (data : list Z) (positions : list Z) (out : list Z) (d : dev),
    length positions = length data ->
    rx d = data ++ tail ->
    for_in positions
      (fun i out_data =>
         b <- ft_i2c_read_give_ack (i =? num_bytes - 1) ;;
         ret (out_data ++ [b]))
      out d
    = (Ok (out ++ data),
       {| trace := trace d ++ read_loop positions num_bytes; rx := tail |}).
Proof.
  induction data as [|b data IH]; intros [|i positions] out d Hlen Hrx;
    try discriminate Hlen.
  - simpl in *. unfold ret, read_loop. simpl.
    rewrite !app_nil_r. rewrite <- Hrx. now destruct d.
  - simpl. unfold bind at 1. unfold bind at 1.
    rewrite ft_i2c_read_give_ack_mock, Hrx. simpl. unfold ret at 1.
    rewrite (IH positions (out ++ [b])); simpl; auto.
    rewrite <- !app_assoc. reflexivity.
Qed.

Lemma ft_i2c_write_reg_addr_mock
  (bus_addr reg_addr : Z) (stop : bool) (d : dev) (a1 a2 : Z) (rest : list Z) :
  is_byte reg_addr = true ->
  rx d = a1 :: a2 :: rest ->
  Z.testbit a1 0 = false ->
  Z.testbit a2 0 = false ->
  ft_i2c_write_reg_addr bus_addr reg_addr stop d =
  (Ok tt,
   {| trace := trace d ++ write_reg_addr bus_addr reg_addr stop; rx := rest |}).
Proof.
  intros Hreg Hrx H1 H2. unfold ft_i2c_write_reg_addr, bind.
  rewrite ft_i2c_start_mock, ft_i2c_dev_addr_mock. simpl. rewrite Hrx, H1.
  rewrite ft_i2c_write_get_ack_mock, Hreg. simpl. rewrite H2.
  unfold write_reg_addr.
  destruct stop; [rewrite ft_i2c_stop_mock|]; unfold ret, log; simpl;
    rewrite <- !app_assoc; simpl; reflexivity.
Qed.

Lemma ft_i2c_write_reg_addr_nack
  (bus_addr reg_addr : Z) (stop : bool) (d : dev) (r : Z) (rest : list Z) :
  rx d = r :: rest ->
  Z.testbit r 0 = true ->
  ft_i2c_write_reg_addr bus_addr reg_addr stop d =
  (Raise IOError,
   {| trace := trace d ++ [EvWrite start_cmd_data]
                 ++ write_exchange (dev_addr_byte bus_addr false);
      rx := rest |}).
Proof.
  intros Hrx Hr. unfold ft_i2c_write_reg_addr, bind.
  rewrite ft_i2c_start_mock, ft_i2c_dev_addr_mock. simpl. rewrite Hrx, Hr.
  rewrite <- !app_assoc. reflexivity.
Qed.

Lemma ft_i2c_read_bytes_mock
  (bus_addr num_bytes : Z) (stop : bool) (d : dev)
  (ack : Z) (data tail : list Z) :
  rx d = ack :: data ++ tail ->
  Z.testbit ack 0 = false ->
  length data = Z.to_nat num_bytes ->
  ft_i2c_read_bytes bus_addr num_bytes stop d =
  (Ok data,
   {| trace := trace d ++ read_bytes bus_addr num_bytes stop; rx := tail |}).
Proof.
  intros Hrx Hack Hlen. unfold ft_i2c_read_bytes. unfold bind at 1.
  rewrite ft_i2c_start_mock. unfold bind at 1.
  rewrite ft_i2c_dev_addr_mock. simpl. rewrite Hrx, Hack.
  unfold bind at 1.
  rewrite (read_loop_mock num_bytes tail data); simpl;
    [| now rewrite range_length | reflexivity].
  unfold read_bytes.
  destruct stop; unfold bind; [rewrite ft_i2c_stop_mock|]; unfold ret, log; simpl;
    rewrite <- !app_assoc; simpl; rewrite <- ?app_assoc; simpl;
    rewrite ?app_nil_r; reflexivity.
Qed.

Lemma ft_i2c_read_bytes_nack
  (bus_addr num_bytes : Z) (stop : bool) (d : dev) (r : Z) (rest : list Z) :
  rx d = r :: rest ->
  Z.testbit r 0 = true ->
  ft_i2c_read_bytes bus_addr num_bytes stop d =
  (Raise IOError,
   {| trace := trace d ++ [EvWrite start_cmd_data]
                 ++ write_exchange (dev_addr_byte bus_addr true);
      rx := rest |}).
Proof.
  intros Hrx Hr. unfold ft_i2c_read_bytes. unfold bind at 1.
  rewrite ft_i2c_start_mock. unfold bind at 1.
  rewrite ft_i2c_dev_addr_mock. simpl. rewrite Hrx, Hr.
  rewrite <- !app_assoc. reflexivity.
Qed.

(** ** Decoding words *)

Lemma le16_lor (lo hi : Z) :
  0 <= lo < 256 -> lo + 256 * hi = Z.lor lo (Z.shiftl hi 8).
Proof.
  intros Hlo. rewrite Z.shiftl_mul_pow2 by lia.
  change (2 ^ 8) with 256. rewrite (Z.mul_comm hi).
  assert (Hdisj : Z.land lo (256 * hi) = 0);
    [| now rewrite Z.add_nocarry_lxor, Z.lxor_lor].
  apply Z.bits_inj'. intros n Hn.
  rewrite Z.land_spec, Z.testbit_0_l.
  destruct (Z.lt_ge_cases n 8) as [Hlt | Hge].
  - replace (256 * hi) with (hi * 2 ^ 8) by (change (2 ^ 8) with 256; lia).
    rewrite Z.mul_pow2_bits_low by lia. apply andb_false_r.
  - replace lo with (lo mod 2 ^ 8)
      by (change (2 ^ 8) with 256; apply Z.mod_small; lia).
    rewrite Z.mod_pow2_bits_high by lia. reflexivity.
Qed.

Lemma is_bytes_Forall (l : list Z) :
  is_bytes l = true <-> Forall (fun b => 0 <= b < 256) l.
Proof.
  unfold is_bytes. rewrite forallb_forall, Forall_forall.
  split; intros Hall b Hb; apply is_byte_iff, Hall, Hb.
Qed.

Lemma unpack_H_words_le :
  forall (n : nat) (raw : list Z),
    Forall (fun b => 0 <= b < 256) raw ->
    length raw = (2 * n)%nat ->
    unpack_H n raw = Ok (words_le raw).
Proof.
  induction n as [|n IH]; intros raw Hall Hlen.
  - destruct raw; [reflexivity | discriminate].
  - destruct raw as [|lo [|hi rest]]; try (simpl in Hlen; lia).
    inversion Hall as [|? ? Hlo Hall']; subst.
    inversion Hall' as [|? ? Hhi Hrest]; subst.
    cbn [unpack_H words_le]. rewrite (IH rest Hrest) by (simpl in Hlen; lia).
    now rewrite le16_lor.
Qed.

Lemma words_le_length :
  forall (n : nat) (raw : list Z),
    length raw = (2 * n)%nat -> length (words_le raw) = n.
Proof.
  induction n as [|n IH]; intros raw Hlen.
  - destruct raw; [reflexivity | discriminate].
  - destruct raw as [|lo [|hi rest]]; try (simpl in Hlen; lia).
    cbn [words_le length]. f_equal. apply IH. simpl in Hlen. lia.
Qed.

Lemma words_le_nth :
  forall (raw : list Z) (i : nat),
    Forall (fun b => 0 <= b < 256) raw ->
    (2 * i + 1 < length raw)%nat ->
    nth i (words_le raw) 0 = nth (2 * i) raw 0 + 256 * nth (2 * i + 1) raw 0.
Proof.
  fix IH 1. intros raw i Hall Hi.
  destruct raw as [|lo [|hi rest]]; try (simpl in Hi; lia).
  inversion Hall as [|? ? Hlo Hall']; subst.
  inversion Hall' as [|? ? Hhi Hrest]; subst.
  destruct i as [|i].
  - cbn [words_le nth Nat.mul Nat.add]. now rewrite le16_lor.
  - cbn [words_le nth].
    replace (2 * S i)%nat with (S (S (2 * i))) by lia.
    cbn [nth Nat.add]. apply IH; [assumption | simpl in Hi; lia].
Qed.

Lemma words_le_range :
  forall (raw : list Z),
    Forall (fun b => 0 <= b < 256) raw ->
    Forall (fun w => 0 <= w < 65536) (words_le raw).
Proof.
  fix IH 1. intros raw Hall.
  destruct raw as [|lo [|hi rest]]; try constructor.
  - inversion Hall as [|? ? Hlo Hall']; subst.
    inversion Hall' as [|? ? Hhi Hrest]; subst.
    rewrite <- le16_lor by assumption. lia.
  - inversion Hall as [|? ? Hlo Hall']; subst.
    inversion Hall' as [|? ? Hhi Hrest]; subst.
    apply IH, Hrest.
Qed.

Lemma to_nat_twice (n : Z) : Z.to_nat (n * 2) = (2 * Z.to_nat n)%nat.
Proof. lia. Qed.

(** ** The three public reads on the recording transport *)

Lemma sbs_block_read_mock
  (bus_addr reg_addr num_bytes : Z) (d : dev)
  (a1 a2 a3 : Z) (raw tail : list Z) :
  0 <= reg_addr < 256 ->
  rx d = a1 :: a2 :: a3 :: raw ++ tail ->
  Z.testbit a1 0 = false ->
  Z.testbit a2 0 = false ->
  Z.testbit a3 0 = false ->
  length raw = Z.to_nat num_bytes ->
  sbs_block_read bus_addr reg_addr num_bytes d =
  (Ok raw,
   {| trace := trace d ++ write_reg_addr bus_addr reg_addr false
                 ++ read_bytes bus_addr num_bytes true;
      rx := tail |}).
Proof.
  intros Hreg Hrx H1 H2 H3 Hlen. unfold sbs_block_read, bind.
  rewrite (@ft_i2c_write_reg_addr_mock _ _ _ _ a1 a2 (a3 :: raw ++ tail));
    auto; [| now apply is_byte_iff].
  rewrite (@ft_i2c_read_bytes_mock _ _ _ _ a3 raw tail); auto.
  simpl. rewrite <- !app_assoc. reflexivity.
Qed.

Lemma i2c_read_words_mock
  (bus_addr reg_addr num_words : Z) (d : dev)
  (a1 a2 a3 : Z) (raw tail : list Z) :
  0 <= reg_addr < 256 ->
  rx d = a1 :: a2 :: a3 :: raw ++ tail ->
  Z.testbit a1 0 = false ->
  Z.testbit a2 0 = false ->
  Z.testbit a3 0 = false ->
  length raw = Z.to_nat (num_words * 2) ->
  Forall (fun b => 0 <= b < 256) raw ->
  i2c_read_words bus_addr reg_addr num_words d =
  (Ok (words_le raw),
   {| trace := trace d ++ write_reg_addr bus_addr reg_addr false
                 ++ read_bytes bus_addr (num_words * 2) true;
      rx := tail |}).
Proof.
  intros Hreg Hrx H1 H2 H3 Hlen Hall. unfold i2c_read_words. unfold bind at 1.
  rewrite (@ft_i2c_write_reg_addr_mock _ _ _ _ a1 a2 (a3 :: raw ++ tail));
    auto; [| now apply is_byte_iff].
  unfold bind at 1.
  rewrite (@ft_i2c_read_bytes_mock _ _ _ _ a3 raw tail); auto.
  unfold bind, lift, bytes, unpack_le_H.
  apply is_bytes_Forall in Hall as Hb. rewrite Hb.
  rewrite unpack_H_words_le; auto; [| now rewrite Hlen, to_nat_twice].
  simpl. rewrite <- !app_assoc. reflexivity.
Qed.

Lemma sbs_word_read_mock
  (bus_addr reg_addr : Z) (d : dev) (a1 a2 a3 lo hi : Z) (tail : list Z) :
  0 <= reg_addr < 256 ->
  rx d = a1 :: a2 :: a3 :: lo :: hi :: tail ->
  Z.testbit a1 0 = false ->
  Z.testbit a2 0 = false ->
  Z.testbit a3 0 = false ->
  0 <= lo < 256 ->
  0 <= hi < 256 ->
  sbs_word_read bus_addr reg_addr d =
  (Ok (Z.lor lo (Z.shiftl hi 8)),
   {| trace := trace d ++ write_reg_addr bus_addr reg_addr false
                 ++ read_bytes bus_addr 2 true;
      rx := tail |}).
Proof.
  intros Hreg Hrx H1 H2 H3 Hlo Hhi. unfold sbs_word_read, bind.
  rewrite (@i2c_read_words_mock _ _ 1 _ a1 a2 a3 [lo; hi] tail); auto.
Qed.

(** ** Observing a trace *)

Lemma decodes_app (t u : list event) :
  decodes (t ++ u) = decodes t && decodes u.
Proof. apply forallb_app. Qed.

Lemma ops_of_app (t u : list event) : ops_of (t ++ u) = ops_of t ++ ops_of u.
Proof. apply flat_map_app. Qed.

Lemma handshakes_app (o p : list Mpsse.op) :
  Mpsse.handshakes (o ++ p) = Mpsse.handshakes o ++ Mpsse.handshakes p.
Proof. apply flat_map_app. Qed.

Lemma bytes_out_app (o p : list Mpsse.op) :
  Mpsse.bytes_out (o ++ p) = Mpsse.bytes_out o ++ Mpsse.bytes_out p.
Proof. apply flat_map_app. Qed.

Lemma byte_reads_app (o p : list Mpsse.op) :
  Mpsse.byte_reads (o ++ p) = (Mpsse.byte_reads o + Mpsse.byte_reads p)%nat.
Proof. unfold Mpsse.byte_reads. now rewrite filter_app, length_app. Qed.

Lemma read_loop_observed (num_bytes : Z) (positions : list Z) :
  decodes (read_loop positions num_bytes) = true
  /\ Mpsse.bytes_out (ops_of (read_loop positions num_bytes)) = []
  /\ Mpsse.handshakes (ops_of (read_loop positions num_bytes))
     = map (fun i => if i =? num_bytes - 1 then DATA_SEND_NACK else DATA_SEND_ACK)
         positions
  /\ Mpsse.byte_reads (ops_of (read_loop positions num_bytes)) = length positions.
Proof.
  induction positions as [|i positions (Hd & Hb & Hh & Hr)].
  - repeat split.
  - unfold read_loop in *. cbn [flat_map].
    rewrite decodes_app, ops_of_app, bytes_out_app, handshakes_app,
      byte_reads_app, Hd, Hb, Hh, Hr.
    destruct (i =? num_bytes - 1) eqn:E; repeat split;
      cbn [map]; rewrite E; reflexivity.
Qed.

Lemma range_snoc (n : Z) : 1 <= n -> range n = range (n - 1) ++ [n - 1].
Proof.
  intros Hn. unfold range.
  replace (Z.to_nat n) with (S (Z.to_nat (n - 1))) by lia.
  rewrite seq_S, map_app. simpl. repeat f_equal. lia.
Qed.

Lemma range_bound (n i : Z) : In i (range n) -> 0 <= i < n.
Proof.
  unfold range. rewrite in_map_iff. intros (k & <- & Hk).
  apply in_seq in Hk. lia.
Qed.

Lemma handshake_pattern (n : Z) :
  1 <= n ->
  map (fun i => if i =? n - 1 then DATA_SEND_NACK else DATA_SEND_ACK) (range n)
  = repeat DATA_SEND_ACK (Z.to_nat (n - 1)) ++ [DATA_SEND_NACK].
Proof.
  intros Hn. rewrite range_snoc, map_app by assumption. simpl.
  rewrite Z.eqb_refl. f_equal.
  rewrite <- (range_length (n - 1)), <- map_const.
  apply map_ext_in. intros i Hi. apply range_bound in Hi.
  destruct (Z.eqb_spec i (n - 1)); [lia | reflexivity].
Qed.

(** ** The flush discipline is kept by composition *)

Lemma disciplined_app_aux (u : list event) :
  disciplined u = true ->
  forall (n : nat) (t : list event),
    (length t <= n)%nat ->
    disciplined t = true -> disciplined (t ++ u) = true.
Proof.
  intros Hu. induction n as [|n IH]; intros t Hlen Ht.
  - destruct t; [assumption | simpl in Hlen; lia].
  - destruct t as [|e t]; [assumption|].
    simpl in Hlen.
    destruct e; cbn [disciplined app] in *; try (apply IH; [lia | assumption]);
      try discriminate.
    destruct (Mpsse.decode s) as [ops|]; [|discriminate].
    destruct (Mpsse.expected_response_bytes ops =? 0).
    + apply IH; [lia | assumption].
    + apply andb_true_iff in Ht as [Hfl Hrest]. rewrite Hfl. simpl.
      destruct t as [|[] t']; try discriminate.
      cbn [app]. apply andb_true_iff in Hrest as [Hn Hrest'].
      rewrite Hn. simpl. apply IH; [simpl in Hlen; lia | assumption].
Qed.

Lemma disciplined_app (t u : list event) :
  disciplined t = true -> disciplined u = true -> disciplined (t ++ u) = true.
Proof.
  intros Ht Hu. eapply disciplined_app_aux; [exact Hu | apply Nat.le_refl | exact Ht].
Qed.

Lemma tidy_ret {A} (a : A) : tidy (ret a).
Proof. intros d. exists []. now rewrite app_nil_r. Qed.

Lemma tidy_raise {A} (e : exn) : tidy (@raise dev A e).
Proof. intros d. exists []. now rewrite app_nil_r. Qed.

Lemma tidy_lift {A} (r : result A) : tidy (lift r).
Proof. intros d. exists []. now rewrite app_nil_r. Qed.

Lemma tidy_bind {A B} (m : M dev A) (k : A -> M dev B) :
  tidy m -> (forall a, tidy (k a)) -> tidy (bind m k).
Proof.
  intros Hm Hk d. unfold bind.
  destruct (Hm d) as (t & Et & Ht).
  destruct (m d) as [[a | e] d1]; simpl in Et.
  - destruct (Hk a d1) as (u & Eu & Hu).
    exists (t ++ u). rewrite Eu, Et, app_assoc.
    split; [reflexivity | now apply disciplined_app].
  - exists t. now split.
Qed.

Lemma tidy_for_in {A B} (body : A -> B -> M dev B) :
  (forall x acc, tidy (body x acc)) ->
  forall (xs : list A) (acc : B), tidy (for_in xs body acc).
Proof.
  intros Hbody. induction xs as [|x xs IH]; intros acc; cbn [for_in].
  - apply tidy_ret.
  - apply tidy_bind; [apply Hbody | intros acc'; apply IH].
Qed.

Create HintDb tidy.
#[local] Hint Resolve tidy_ret tidy_raise tidy_lift tidy_bind tidy_for_in : tidy.

Lemma tidy_start : tidy ft_i2c_start.
Proof.
  intros d. rewrite ft_i2c_start_mock. exists [EvWrite start_cmd_data].
  split; [reflexivity | now vm_compute].
Qed.

Lemma tidy_stop : tidy ft_i2c_stop.
Proof.
  intros d. rewrite ft_i2c_stop_mock. exists [EvWrite stop_cmd_data].
  split; [reflexivity | now vm_compute].
Qed.

Lemma tidy_write_get_ack (data : Z) : tidy (ft_i2c_write_get_ack data).
Proof.
  intros d. rewrite ft_i2c_write_get_ack_mock.
  destruct (is_byte data).
  - exists (write_exchange data).
    split; [destruct (rx d); reflexivity | reflexivity].
  - exists []. now rewrite app_nil_r.
Qed.

Lemma tidy_read_give_ack (nack : bool) : tidy (ft_i2c_read_give_ack nack).
Proof.
  intros d. rewrite ft_i2c_read_give_ack_mock.
  exists (read_exchange nack). split; [reflexivity | now destruct nack].
Qed.

#[local] Hint Resolve tidy_start tidy_stop tidy_write_get_ack
  tidy_read_give_ack : tidy.

Lemma tidy_write_reg_addr (bus_addr reg_addr : Z) (stop : bool) :
  tidy (ft_i2c_write_reg_addr bus_addr reg_addr stop).
Proof.
  unfold ft_i2c_write_reg_addr, ft_i2c_dev_addr.
  destruct stop; auto 10 with tidy.
Qed.

Lemma tidy_read_bytes (bus_addr num_bytes : Z) (stop : bool) :
  tidy (ft_i2c_read_bytes bus_addr num_bytes stop).
Proof.
  unfold ft_i2c_read_bytes, ft_i2c_dev_addr.
  destruct stop; auto 10 with tidy.
Qed.

#[local] Hint Resolve tidy_write_reg_addr tidy_read_bytes : tidy.

Lemma read_loop_pattern (n : Z) :
  1 <= n ->
  read_loop (range n) n
  = concat (repeat (read_exchange false) (Z.to_nat (n - 1))) ++ read_exchange true.
Proof.
  intros Hn. unfold read_loop. rewrite range_snoc by assumption.
  rewrite flat_map_app. cbn [flat_map]. rewrite Z.eqb_refl, app_nil_r.
  f_equal. rewrite flat_map_concat_map. f_equal.
  rewrite <- (range_length (n - 1)), <- map_const.
  apply map_ext_in. intros i Hi. apply range_bound in Hi.
  destruct (Z.eqb_spec i (n - 1)); [lia | reflexivity].
Qed.

Lemma start_observed :
  decodes [EvWrite start_cmd_data] = true
  /\ Mpsse.bytes_out (ops_of [EvWrite start_cmd_data]) = []
  /\ Mpsse.handshakes (ops_of [EvWrite start_cmd_data]) = []
  /\ Mpsse.byte_reads (ops_of [EvWrite start_cmd_data]) = 0%nat.
Proof. repeat split. Qed.

Lemma stop_events_observed (stop : bool) :
  decodes (stop_events stop) = true
  /\ Mpsse.bytes_out (ops_of (stop_events stop)) = []
  /\ Mpsse.handshakes (ops_of (stop_events stop)) = []
  /\ Mpsse.byte_reads (ops_of (stop_events stop)) = 0%nat.
Proof. destruct stop; repeat split. Qed.

Lemma write_exchange_observed (data : Z) :
  decodes (write_exchange data) = true
  /\ Mpsse.bytes_out (ops_of (write_exchange data)) = [data]
  /\ Mpsse.handshakes (ops_of (write_exchange data)) = []
  /\ Mpsse.byte_reads (ops_of (write_exchange data)) = 0%nat.
Proof. repeat split. Qed.

Lemma read_bytes_observed (bus_addr num_bytes : Z) (stop : bool) :
  decodes (read_bytes bus_addr num_bytes stop) = true
  /\ Mpsse.bytes_out (ops_of (read_bytes bus_addr num_bytes stop))
     = [dev_addr_byte bus_addr true]
  /\ Mpsse.handshakes (ops_of (read_bytes bus_addr num_bytes stop))
     = map (fun i => if i =? num_bytes - 1 then DATA_SEND_NACK else DATA_SEND_ACK)
         (range num_bytes)
  /\ Mpsse.byte_reads (ops_of (read_bytes bus_addr num_bytes stop))
     = Z.to_nat num_bytes.
Proof.
  destruct (read_loop_observed num_bytes (range num_bytes)) as (Hd & Hb & Hh & Hr).
  destruct start_observed as (Sd & Sb & Sh & Sr).
  destruct (stop_events_observed stop) as (Pd & Pb & Ph & Pr).
  destruct (write_exchange_observed (dev_addr_byte bus_addr true))
    as (Wd & Wb & Wh & Wr).
  unfold read_bytes.
  rewrite !decodes_app, !ops_of_app, !bytes_out_app, !handshakes_app,
    !byte_reads_app, Hd, Hb, Hh, Hr, Sd, Sb, Sh, Sr, Pd, Pb, Ph, Pr,
    Wd, Wb, Wh, Wr, range_length.
  repeat split; [now rewrite app_nil_r | simpl; lia].
Qed.

Lemma write_reg_addr_observed (bus_addr reg_addr : Z) (stop : bool) :
  decodes (write_reg_addr bus_addr reg_addr stop) = true
  /\ Mpsse.bytes_out (ops_of (write_reg_addr bus_addr reg_addr stop))
     = [dev_addr_byte bus_addr false; reg_addr]
  /\ Mpsse.handshakes (ops_of (write_reg_addr bus_addr reg_addr stop)) = []
  /\ Mpsse.byte_reads (ops_of (write_reg_addr bus_addr reg_addr stop)) = 0%nat.
Proof.
  destruct start_observed as (Sd & Sb & Sh & Sr).
  destruct (stop_events_observed stop) as (Pd & Pb & Ph & Pr).
  destruct (write_exchange_observed (dev_addr_byte bus_addr false))
    as (Wd & Wb & Wh & Wr).
  destruct (write_exchange_observed reg_addr) as (Rd & Rb & Rh & Rr).
  unfold write_reg_addr.
  rewrite !decodes_app, !ops_of_app, !bytes_out_app, !handshakes_app,
    !byte_reads_app, Sd, Sb, Sh, Sr, Pd, Pb, Ph, Pr,
    Wd, Wb, Wh, Wr, Rd, Rb, Rh, Rr.
  repeat split.
Qed.

(** * The engine against its specification *)

(** C1.  [i2c_read_words] consumes the three acknowledge responses of the
    two address bytes and the register pointer and then exactly
    [2*num_words] raw bytes, and returns the [num_words] unsigned 16-bit
    values obtained by pairing consecutive raw bytes low byte first, in
    transfer order, for every [num_words] from 1 to 16.  The instance
    below is the spec's example: [0x34, 0x12, 0x78, 0x56] gives
    [0x1234, 0x5678]. *)
Theorem i2c_read_words_little_endian
  (bus_addr reg_addr num_words : Z) (d : dev)
  (a1 a2 a3 : Z) (raw tail : list Z) :
  1 <= num_words <= 16 ->
  0 <= reg_addr < 256 ->
  rx d = a1 :: a2 :: a3 :: raw ++ tail ->
  Z.testbit a1 0 = false ->
  Z.testbit a2 0 = false ->
  Z.testbit a3 0 = false ->
  length raw = Z.to_nat (2 * num_words) ->
  Forall (fun b => 0 <= b < 256) raw ->
  fst (i2c_read_words bus_addr reg_addr num_words d) = Ok (words_le raw)
  /\ rx (snd (i2c_read_words bus_addr reg_addr num_words d)) = tail
  /\ length (words_le raw) = Z.to_nat num_words
  /\ (forall i : nat,
        (i < Z.to_nat num_words)%nat ->
        nth i (words_le raw) 0
        = nth (2 * i) raw 0 + 256 * nth (2 * i + 1) raw 0)
  /\ Forall (fun w => 0 <= w < 65536) (words_le raw).
Proof.
  intros Hn Hreg Hrx H1 H2 H3 Hlen Hall.
  rewrite (@i2c_read_words_mock _ _ _ _ a1 a2 a3 raw tail);
    auto; [| rewrite Hlen; f_equal; lia].
  repeat split.
  - apply words_le_length. lia.
  - intros i Hi. apply words_le_nth; [assumption | lia].
  - now apply words_le_range.
Qed.

Lemma i2c_read_words_little_endian_witness :
  fst (i2c_read_words 0x6C 0x00 2
         {| trace := []; rx := [0; 0; 0; 0x34; 0x12; 0x78; 0x56] |})
  = Ok [0x1234; 0x5678].
Proof.
  refine (proj1 (@i2c_read_words_little_endian 0x6C 0x00 2
                   {| trace := []; rx := [0; 0; 0; 0x34; 0x12; 0x78; 0x56] |}
                   0 0 0 [0x34; 0x12; 0x78; 0x56] [] _ _ _ _ _ _ _ _));
    try reflexivity; try lia.
  repeat constructor; lia.
Defined.

(** C2.  For every [N >= 1], an addressed read of [N] bytes sends START,
    then the device address with the read flag set, then [N] stream and
    read pairs of the read-with-handshake primitive, of which the first
    [N-1] clock out the ACK value [0x00] and the last one the NACK value
    [0x80]; each pair clocks in one data byte. *)
Theorem read_bytes_nack_on_last_byte_only
  (bus_addr N : Z) (stop : bool) (d : dev) (ack : Z) (data tail : list Z) :
  1 <= N ->
  rx d = ack :: data ++ tail ->
  Z.testbit ack 0 = false ->
  length data = Z.to_nat N ->
  exists delta : list event,
    ft_i2c_read_bytes bus_addr N stop d
    = (Ok data, {| trace := trace d ++ delta; rx := tail |})
    /\ delta
       = [EvWrite start_cmd_data]
           ++ write_exchange (Z.lor (Z.land bus_addr 0xFE) 1)
           ++ concat (repeat (read_exchange false) (Z.to_nat (N - 1)))
           ++ read_exchange true
           ++ stop_events stop
    /\ decodes delta = true
    /\ Mpsse.bytes_out (ops_of delta) = [Z.lor (Z.land bus_addr 0xFE) 1]
    /\ Mpsse.byte_reads (ops_of delta) = Z.to_nat N
    /\ Mpsse.handshakes (ops_of delta)
       = repeat DATA_SEND_ACK (Z.to_nat (N - 1)) ++ [DATA_SEND_NACK]
    /\ count_occ Z.eq_dec (Mpsse.handshakes (ops_of delta)) DATA_SEND_NACK
       = 1%nat
    /\ Mpsse.handshakes (ops_of (read_exchange false)) = [0x00]
    /\ Mpsse.handshakes (ops_of (read_exchange true)) = [0x80].
Proof.
  intros HN Hrx Hack Hlen.
  exists (read_bytes bus_addr N stop).
  destruct (read_bytes_observed bus_addr N stop) as (Hd & Hb & Hh & Hr).
  split; [now apply ft_i2c_read_bytes_mock with (ack := ack) |].
  split.
  { unfold read_bytes. rewrite read_loop_pattern by assumption.
    rewrite <- !app_assoc. reflexivity. }
  repeat split; try assumption.
  - now rewrite Hh, handshake_pattern.
  - rewrite Hh, handshake_pattern, count_occ_app by assumption.
    rewrite count_occ_repeat_neq by discriminate. reflexivity.
Qed.

Lemma read_bytes_nack_on_last_byte_only_witness :
  exists delta : list event,
    ft_i2c_read_bytes 0x6C 3 true {| trace := []; rx := [0; 0xAA; 0xBB; 0xCC] |}
    = (Ok [0xAA; 0xBB; 0xCC], {| trace := [] ++ delta; rx := [] |})
    /\ Mpsse.handshakes (ops_of delta) = [0x00; 0x00; 0x80].
Proof.
  destruct (@read_bytes_nack_on_last_byte_only 0x6C 3 true
              {| trace := []; rx := [0; 0xAA; 0xBB; 0xCC] |}
              0 [0xAA; 0xBB; 0xCC] [])
    as (delta & Hrun & _ & _ & _ & _ & Hh & _ & _);
    try reflexivity; try lia.
  exists delta. split; [exact Hrun | exact Hh].
Defined.

Lemma ft_i2c_write_get_ack_any
  (T : Type) (TT : Transport T) (data r n : Z) (t t1 t2 : T) :
  0 <= data < 256 ->
  dev_write (write_get_ack_cmd_data data) t = (Ok n, t1) ->
  dev_read 1 t1 = (Ok [r], t2) ->
  ft_i2c_write_get_ack data t
  = (if Z.testbit r 0 then Raise IOError else Ok tt, t2).
Proof.
  intros Hdata Hw Hr. apply is_byte_iff in Hdata.
  unfold ft_i2c_write_get_ack, ft_write, ft_read, bind, lift, bytes.
  rewrite write_get_ack_cmd_is_bytes, Hdata, Hw, Hr. cbn [index0].
  rewrite truthy_bit0. unfold raise, ret.
  destruct (Z.testbit r 0); reflexivity.
Qed.

(** C3.  Over any transport that accepts the stream and answers the read
    with one response byte, the write-with-ack primitive raises [IOError]
    exactly when bit 0 of that byte is 1 and returns normally when it is
    0.  The return value carries nothing, and on the recording transport
    an addressed read returns its data bytes alone, whatever the value of
    the acknowledge response. *)
Theorem write_get_ack_raises_iff_nack
  (T : Type) (TT : Transport T) (data r n : Z) (t t1 t2 : T) :
  0 <= data < 256 ->
  dev_write (write_get_ack_cmd_data data) t = (Ok n, t1) ->
  dev_read 1 t1 = (Ok [r], t2) ->
  (fst (ft_i2c_write_get_ack data t) = Raise IOError <-> Z.testbit r 0 = true)
  /\ (Z.testbit r 0 = false -> ft_i2c_write_get_ack data t = (Ok tt, t2))
  /\ (Z.testbit r 0 = false ->
      forall (d : dev) (bus_addr num_bytes : Z) (stop : bool)
             (bytes_read tail : list Z),
        rx d = r :: bytes_read ++ tail ->
        length bytes_read = Z.to_nat num_bytes ->
        fst (ft_i2c_read_bytes bus_addr num_bytes stop d) = Ok bytes_read).
Proof.
  intros Hdata Hw Hr.
  rewrite (@ft_i2c_write_get_ack_any T TT data r n t t1 t2 Hdata Hw Hr).
  cbn [fst]. repeat split.
  - destruct (Z.testbit r 0); [reflexivity | discriminate].
  - intros ->. reflexivity.
  - intros ->. reflexivity.
  - intros Hbit d bus_addr num_bytes stop bytes_read tail Hrx Hlen.
    now rewrite (@ft_i2c_read_bytes_mock _ _ _ _ r bytes_read tail).
Qed.

Lemma write_get_ack_raises_iff_nack_witness :
  ft_i2c_write_get_ack 0x6C {| trace := []; rx := [0xFE; 0x12] |}
  = (Ok tt,
     {| trace := [EvWrite (write_get_ack_cmd_data 0x6C); EvRead 1];
        rx := [0x12] |})
  /\ (fst (ft_i2c_write_get_ack 0x6C {| trace := []; rx := [0x01; 0x12] |})
      = Raise IOError).
Proof.
  split.
  - apply (proj1 (proj2 (@write_get_ack_raises_iff_nack dev transport
                           0x6C 0xFE 12
                           {| trace := []; rx := [0xFE; 0x12] |} _ _
                           ltac:(lia) eq_refl eq_refl))).
    reflexivity.
  - apply (proj1 (@write_get_ack_raises_iff_nack dev transport
                    0x6C 0x01 12
                    {| trace := []; rx := [0x01; 0x12] |} _ _
                    ltac:(lia) eq_refl eq_refl)).
    reflexivity.
Defined.

(** C4.  The address byte [__ft_i2c_dev_addr] frames is
    [(a & 0xFE) | (1 if r else 0)]: over any transport the call is the
    write-with-ack of that byte, and on the recording transport it is the
    one byte clocked out.  This holds for every integer [a], so for every
    address from 0 to 255, where the byte is again in that range. *)
Theorem dev_addr_framing (a : Z) (r : bool) :
  dev_addr_byte a r = Z.lor (Z.land a 0xFE) (if r then 1 else 0)
  /\ 0 <= dev_addr_byte a r < 256
  /\ Z.testbit (dev_addr_byte a r) 0 = r
  /\ (forall (T : Type) (TT : Transport T),
        ft_i2c_dev_addr (T := T) a r
        = ft_i2c_write_get_ack (Z.lor (Z.land a 0xFE) (if r then 1 else 0)))
  /\ (forall d : dev,
        exists delta : list event,
          trace (snd (ft_i2c_dev_addr a r d)) = trace d ++ delta
          /\ decodes delta = true
          /\ Mpsse.bytes_out (ops_of delta)
             = [Z.lor (Z.land a 0xFE) (if r then 1 else 0)]).
Proof.
  split; [apply dev_addr_byte_spec |].
  split; [apply is_byte_iff, dev_addr_byte_is_byte |].
  split.
  { rewrite dev_addr_byte_spec, Z.lor_spec, Z.land_spec.
    change (Z.testbit 254 0) with false. rewrite andb_false_r.
    destruct r; reflexivity. }
  split.
  { intros T TT. unfold ft_i2c_dev_addr. now rewrite dev_addr_byte_spec. }
  intros d. exists (write_exchange (dev_addr_byte a r)).
  rewrite ft_i2c_dev_addr_mock, <- dev_addr_byte_spec.
  destruct (rx d); repeat split.
Qed.

(** C5.  When the response to the device-address write of the
    register-pointer phase has the NACK bit set, [i2c_read_words],
    [sbs_block_read] and [sbs_word_read] raise [IOError] after START and
    that one address byte: the register pointer is not sent, no byte is
    clocked in and no handshake is clocked out. *)
Theorem address_nack_aborts_before_data_phase
  (bus_addr reg_addr length : Z) (d : dev) (r : Z) (rest : list Z) :
  rx d = r :: rest ->
  Z.testbit r 0 = true ->
  let delta := [EvWrite start_cmd_data] ++ write_exchange (Z.land bus_addr 0xFE) in
  let d' := {| trace := trace d ++ delta; rx := rest |} in
  i2c_read_words bus_addr reg_addr length d = (Raise IOError, d')
  /\ sbs_block_read bus_addr reg_addr length d = (Raise IOError, d')
  /\ sbs_word_read bus_addr reg_addr d = (Raise IOError, d')
  /\ decodes delta = true
  /\ Mpsse.bytes_out (ops_of delta) = [Z.land bus_addr 0xFE]
  /\ Mpsse.byte_reads (ops_of delta) = 0%nat
  /\ Mpsse.handshakes (ops_of delta) = [].
Proof.
  intros Hrx Hr delta d'. subst delta d'.
  unfold sbs_word_read, i2c_read_words, sbs_block_read.
  unfold bind.
  rewrite !(@ft_i2c_write_reg_addr_nack bus_addr reg_addr false d r rest Hrx Hr).
  repeat split.
Qed.

Lemma address_nack_aborts_before_data_phase_witness :
  i2c_read_words 0x6C 0x00 16 {| trace := []; rx := [0x01; 0x55] |}
  = (Raise IOError,
     {| trace := [EvWrite start_cmd_data; EvWrite (write_get_ack_cmd_data 0x6C);
                  EvRead 1];
        rx := [0x55] |}).
Proof.
  exact (proj1 (@address_nack_aborts_before_data_phase 0x6C 0x00 16
                  {| trace := []; rx := [0x01; 0x55] |} 0x01 [0x55]
                  eq_refl eq_refl)).
Defined.

(** C6.  START is one stream of pin-state commands holding SCL high and
    SDA high for 10 commands, then SCL high and SDA low for 20, then SCL
    low and SDA low in a single command, all with both lines driven.  STOP
    is one stream holding SCL low and SDA low for 10 commands, SCL high and
    SDA low for 10, SCL high and SDA high for 10, and then one command that
    turns both lines to inputs. *)
Theorem start_stop_pin_sequences (d : dev) :
  ft_i2c_start d = (Ok tt, log (EvWrite start_cmd_data) d)
  /\ Mpsse.phases start_cmd_data
     = Some [({| Mpsse.scl := true; Mpsse.sda := true;
                 Mpsse.scl_out := true; Mpsse.sda_out := true |}, 10%nat);
             ({| Mpsse.scl := true; Mpsse.sda := false;
                 Mpsse.scl_out := true; Mpsse.sda_out := true |}, 20%nat);
             ({| Mpsse.scl := false; Mpsse.sda := false;
                 Mpsse.scl_out := true; Mpsse.sda_out := true |}, 1%nat)]
  /\ ft_i2c_stop d = (Ok tt, log (EvWrite stop_cmd_data) d)
  /\ Mpsse.phases stop_cmd_data
     = Some [({| Mpsse.scl := false; Mpsse.sda := false;
                 Mpsse.scl_out := true; Mpsse.sda_out := true |}, 10%nat);
             ({| Mpsse.scl := true; Mpsse.sda := false;
                 Mpsse.scl_out := true; Mpsse.sda_out := true |}, 10%nat);
             ({| Mpsse.scl := true; Mpsse.sda := true;
                 Mpsse.scl_out := true; Mpsse.sda_out := true |}, 10%nat);
             ({| Mpsse.scl := true; Mpsse.sda := true;
                 Mpsse.scl_out := false; Mpsse.sda_out := false |}, 1%nat)].
Proof.
  split; [apply ft_i2c_start_mock |].
  split; [reflexivity |].
  split; [apply ft_i2c_stop_mock | reflexivity].
Qed.

(** ** The two backends *)

Lemma engine_ignores_lsb (T : Type) (TT : Transport T) (a a' : Z) :
  Z.shiftr a 1 = Z.shiftr a' 1 ->
  (forall reg_addr num_words,
      i2c_read_words (T := T) a reg_addr num_words
      = i2c_read_words a' reg_addr num_words)
  /\ (forall reg_addr num_bytes,
         sbs_block_read (T := T) a reg_addr num_bytes
         = sbs_block_read a' reg_addr num_bytes)
  /\ (forall reg_addr,
         sbs_word_read (T := T) a reg_addr = sbs_word_read a' reg_addr).
Proof.
  intros E.
  unfold sbs_word_read, i2c_read_words, sbs_block_read, ft_i2c_write_reg_addr,
    ft_i2c_read_bytes, ft_i2c_dev_addr.
  rewrite (dev_addr_byte_lsb a a' false E), (dev_addr_byte_lsb a a' true E).
  repeat split.
Qed.

Lemma native_ignores_lsb (B : Type) (NB : SMBus B) (a a' : Z) :
  Z.shiftr a 1 = Z.shiftr a' 1 ->
  (forall reg_addr num_words,
      smbus2_i2c.i2c_read_words (B := B) a reg_addr num_words
      = smbus2_i2c.i2c_read_words a' reg_addr num_words)
  /\ (forall reg_addr num_bytes,
         smbus2_i2c.sbs_block_read (B := B) a reg_addr num_bytes
         = smbus2_i2c.sbs_block_read a' reg_addr num_bytes)
  /\ (forall reg_addr,
         smbus2_i2c.sbs_word_read (B := B) a reg_addr
         = smbus2_i2c.sbs_word_read a' reg_addr).
Proof.
  intros E.
  unfold smbus2_i2c.sbs_word_read, smbus2_i2c.i2c_read_words,
    smbus2_i2c.sbs_block_read.
  rewrite E. repeat split.
Qed.

Lemma native_read_words (B : Type) (NB : SMBus B) (b : B)
  (bus_addr reg_addr num_words : Z) (raw : list Z) :
  Forall (fun x => 0 <= x < 256) raw ->
  length raw = Z.to_nat (num_words * 2) ->
  fst (read_i2c_block_data (Z.shiftr bus_addr 1) reg_addr (num_words * 2) b)
  = Ok raw ->
  fst (smbus2_i2c.i2c_read_words bus_addr reg_addr num_words b)
  = Ok (words_le raw).
Proof.
  intros Hall Hlen Hrd. unfold smbus2_i2c.i2c_read_words, bind.
  destruct (read_i2c_block_data _ _ _ b) as [res b']. simpl in Hrd. subst res.
  unfold lift, bytes, unpack_le_H.
  apply is_bytes_Forall in Hall as Hb. rewrite Hb.
  rewrite unpack_H_words_le; auto. now rewrite Hlen, to_nat_twice.
Qed.

Lemma native_block_read (B : Type) (NB : SMBus B) (b : B)
  (bus_addr reg_addr num_bytes : Z) (raw : list Z) :
  Forall (fun x => 0 <= x < 256) raw ->
  fst (read_i2c_block_data (Z.shiftr bus_addr 1) reg_addr num_bytes b) = Ok raw ->
  fst (smbus2_i2c.sbs_block_read bus_addr reg_addr num_bytes b) = Ok raw.
Proof.
  intros Hall Hrd. unfold smbus2_i2c.sbs_block_read, bind.
  destruct (read_i2c_block_data _ _ _ b) as [res b']. simpl in Hrd. subst res.
  unfold lift, bytes. apply is_bytes_Forall in Hall as Hb. now rewrite Hb.
Qed.

Lemma native_word_read (B : Type) (NB : SMBus B) (b : B)
  (bus_addr reg_addr lo hi : Z) :
  0 <= lo < 256 ->
  0 <= hi < 256 ->
  fst (read_i2c_block_data (Z.shiftr bus_addr 1) reg_addr 2 b) = Ok [lo; hi] ->
  fst (smbus2_i2c.sbs_word_read bus_addr reg_addr b)
  = Ok (Z.lor lo (Z.shiftl hi 8)).
Proof.
  intros Hlo Hhi Hrd. unfold smbus2_i2c.sbs_word_read, bind.
  destruct (read_i2c_block_data _ _ _ b) as [res b']. simpl in Hrd. subst res.
  pose proof (proj2 (is_byte_iff lo) Hlo) as Blo.
  pose proof (proj2 (is_byte_iff hi) Hhi) as Bhi.
  unfold lift, bytes, is_bytes. cbn [forallb]. rewrite Blo, Bhi. simpl.
  f_equal. now apply le16_lor.
Qed.

(** C7.  When the device delivers the same raw bytes to both backends
    (to the bit-banged engine after the three acknowledge responses, to
    the native backend as the result of [read_i2c_block_data] at the
    7-bit address [bus_addr >> 1]), the two return the same result: the
    words paired low byte first for [i2c_read_words] and [sbs_word_read],
    the raw bytes in wire order for [sbs_block_read] (a list in one
    backend and a [bytes] object in the other, the same sequence).  Two
    bus addresses that differ in the least significant bit at most give
    the same computation in each backend, over any transport. *)
Theorem backends_agree
  (B : Type) (NB : SMBus B) (b : B) (d : dev)
  (bus_addr reg_addr : Z) (a1 a2 a3 : Z) (raw tail : list Z) :
  0 <= reg_addr < 256 ->
  rx d = a1 :: a2 :: a3 :: raw ++ tail ->
  Z.testbit a1 0 = false ->
  Z.testbit a2 0 = false ->
  Z.testbit a3 0 = false ->
  Forall (fun x => 0 <= x < 256) raw ->
  (forall num_words : Z,
      length raw = Z.to_nat (num_words * 2) ->
      fst (read_i2c_block_data (Z.shiftr bus_addr 1) reg_addr (num_words * 2) b)
      = Ok raw ->
      fst (ftd2xx_i2c.i2c_read_words bus_addr reg_addr num_words d)
      = fst (smbus2_i2c.i2c_read_words bus_addr reg_addr num_words b)
      /\ fst (smbus2_i2c.i2c_read_words bus_addr reg_addr num_words b)
         = Ok (words_le raw))
  /\ (forall num_bytes : Z,
         length raw = Z.to_nat num_bytes ->
         fst (read_i2c_block_data (Z.shiftr bus_addr 1) reg_addr num_bytes b)
         = Ok raw ->
         fst (ftd2xx_i2c.sbs_block_read bus_addr reg_addr num_bytes d)
         = fst (smbus2_i2c.sbs_block_read bus_addr reg_addr num_bytes b)
         /\ fst (smbus2_i2c.sbs_block_read bus_addr reg_addr num_bytes b)
            = Ok raw)
  /\ (forall lo hi : Z,
         raw = [lo; hi] ->
         fst (read_i2c_block_data (Z.shiftr bus_addr 1) reg_addr 2 b) = Ok raw ->
         fst (ftd2xx_i2c.sbs_word_read bus_addr reg_addr d)
         = fst (smbus2_i2c.sbs_word_read bus_addr reg_addr b)
         /\ fst (smbus2_i2c.sbs_word_read bus_addr reg_addr b)
            = Ok (Z.lor lo (Z.shiftl hi 8)))
  /\ (forall (bus_addr' : Z) (T : Type) (TT : Transport T),
         Z.shiftr bus_addr' 1 = Z.shiftr bus_addr 1 ->
         (forall r n, ftd2xx_i2c.i2c_read_words (T := T) bus_addr' r n
                      = ftd2xx_i2c.i2c_read_words bus_addr r n)
         /\ (forall r n, ftd2xx_i2c.sbs_block_read (T := T) bus_addr' r n
                         = ftd2xx_i2c.sbs_block_read bus_addr r n)
         /\ (forall r, ftd2xx_i2c.sbs_word_read (T := T) bus_addr' r
                       = ftd2xx_i2c.sbs_word_read bus_addr r)
         /\ (forall r n, smbus2_i2c.i2c_read_words (B := B) bus_addr' r n
                         = smbus2_i2c.i2c_read_words bus_addr r n)
         /\ (forall r n, smbus2_i2c.sbs_block_read (B := B) bus_addr' r n
                         = smbus2_i2c.sbs_block_read bus_addr r n)
         /\ (forall r, smbus2_i2c.sbs_word_read (B := B) bus_addr' r
                       = smbus2_i2c.sbs_word_read bus_addr r)).
Proof.
  intros Hreg Hrx H1 H2 H3 Hall. repeat apply conj.
  - intros num_words Hlen Hrd.
    rewrite (@native_read_words B NB b bus_addr reg_addr num_words raw Hall Hlen Hrd).
    now rewrite (@i2c_read_words_mock _ _ _ _ a1 a2 a3 raw tail).
  - intros num_bytes Hlen Hrd.
    rewrite (@native_block_read B NB b bus_addr reg_addr num_bytes raw Hall Hrd).
    now rewrite (@sbs_block_read_mock _ _ _ _ a1 a2 a3 raw tail).
  - intros lo hi -> Hrd.
    inversion Hall as [|? ? Hlo Hall']; subst.
    inversion Hall' as [|? ? Hhi _]; subst.
    rewrite (@native_word_read B NB b bus_addr reg_addr lo hi Hlo Hhi Hrd).
    now rewrite (@sbs_word_read_mock _ _ _ a1 a2 a3 lo hi tail).
  - intros bus_addr' T TT E.
    destruct (@engine_ignores_lsb T TT bus_addr' bus_addr E) as (Ew & Eb & Es).
    destruct (@native_ignores_lsb B NB bus_addr' bus_addr E) as (Nw & Nb & Ns).
    repeat split; auto.
Qed.

Lemma backends_agree_witness :
  fst (ftd2xx_i2c.i2c_read_words 0x6C 0x00 2
         {| trace := []; rx := [0; 0; 0; 0x34; 0x12; 0x78; 0x56] |})
  = fst (smbus2_i2c.i2c_read_words 0x6C 0x00 2
           (fun _ _ : Z => [0x34; 0x12; 0x78; 0x56])).
Proof.
  refine (proj1 (proj1 (@backends_agree bus smbus
                          (fun _ _ : Z => [0x34; 0x12; 0x78; 0x56])
                          {| trace := []; rx := [0; 0; 0; 0x34; 0x12; 0x78; 0x56] |}
                          0x6C 0x00 0 0 0 [0x34; 0x12; 0x78; 0x56] []
                          _ eq_refl eq_refl eq_refl eq_refl _)
                   2 eq_refl eq_refl)).
  - lia.
  - repeat constructor; lia.
Defined.

Lemma init_mock (d : dev) :
  init d
  = (Ok tt,
     {| trace := trace d ++
                 [EvSetLatencyTimer 8;
                  EvSetBitMode 0 0;
                  EvSetBitMode 0 2;
                  EvSleep (5 # 100)%Q;
                  EvWrite [CMD_CLKDIV_DISABLE; 1];
                  EvWrite [CMD_SET_CLOCK; 74; 0];
                  EvRead 2;
                  EvWrite [CMD_SET_DATABITS_LOW; 0x13; 0x13]];
        rx := skipn 2 (rx d) |}).
Proof.
  unfold init, bind, ft_write, ft_read, lift, bytes, ret. cbn -[skipn].
  unfold log. cbn -[skipn]. rewrite <- !app_assoc. reflexivity.
Qed.

(** C8.  The divisor computed at initialization is 74, the value of the
    spec's [round(6000000/(40000*2)) - 1], and [__init__] sends it after
    the set-clock opcode as the two bytes 74 and 0, low byte first. *)
Theorem clock_divisor_bytes (d : dev) :
  div = 74
  /\ div = spec_div 6000000 40000
  /\ [div mod 256; div / 256] = [74; 0]
  /\ init d
     = (Ok tt,
        {| trace := trace d ++
                    [EvSetLatencyTimer 8;
                     EvSetBitMode 0 0;
                     EvSetBitMode 0 2;
                     EvSleep (5 # 100)%Q;
                     EvWrite [CMD_CLKDIV_DISABLE; 1];
                     EvWrite [CMD_SET_CLOCK; div mod 256; div / 256];
                     EvRead 2;
                     EvWrite [CMD_SET_DATABITS_LOW; 0x13; 0x13]];
           rx := skipn 2 (rx d) |}).
Proof.
  repeat apply conj; try reflexivity. apply init_mock.
Qed.

(** C9.  The two primitives that clock data in, and the three public
    reads built from them, extend the trace only by events that keep the
    flush discipline, whatever the device answers: each stream with a
    clock-in command has a send-immediate command after it and is
    followed at once by a read of as many bytes as it has clock-in
    commands.  Both primitives' streams have one clock-in command, read
    back as one byte; the streams of [__init__] have none. *)
Theorem flush_discipline :
  (forall data, tidy (ft_i2c_write_get_ack data))
  /\ (forall nack, tidy (ft_i2c_read_give_ack nack))
  /\ (forall bus_addr reg_addr num_words,
         tidy (i2c_read_words bus_addr reg_addr num_words))
  /\ (forall bus_addr reg_addr num_bytes,
         tidy (sbs_block_read bus_addr reg_addr num_bytes))
  /\ (forall bus_addr reg_addr, tidy (sbs_word_read bus_addr reg_addr))
  /\ (forall data,
         exists ops,
           Mpsse.decode (write_get_ack_cmd_data data) = Some ops
           /\ Mpsse.flushed ops = true
           /\ last ops Mpsse.SendImmediate = Mpsse.SendImmediate
           /\ Mpsse.expected_response_bytes ops = 1
           /\ disciplined (write_exchange data) = true)
  /\ (forall nack,
         exists ops,
           Mpsse.decode (read_give_ack_cmd_data nack) = Some ops
           /\ Mpsse.flushed ops = true
           /\ last ops Mpsse.SendImmediate = Mpsse.SendImmediate
           /\ Mpsse.expected_response_bytes ops = 1
           /\ disciplined (read_exchange nack) = true)
  /\ (forall d,
         exists delta,
           trace (snd (init d)) = trace d ++ delta
           /\ Forall (fun s => ~ In CMD_DATAIN_POS_EDGE s) (writes delta)).
Proof.
  repeat apply conj.
  - apply tidy_write_get_ack.
  - apply tidy_read_give_ack.
  - intros. unfold i2c_read_words. auto 10 with tidy.
  - intros. unfold sbs_block_read. auto 10 with tidy.
  - intros. unfold sbs_word_read, i2c_read_words. auto 10 with tidy.
  - intros data. eexists. repeat split.
  - intros [|]; eexists; repeat split.
  - intros d. rewrite init_mock. cbn [snd trace].
    eexists. split; [reflexivity |].
    repeat constructor; cbn [In]; intros Hc;
      repeat (destruct Hc as [Hc | Hc]; try discriminate Hc); contradiction.
Qed.

(** C10.  With [num_bytes = 0] the addressed read still sends START and
    the device address with the read flag set, raises [IOError] when that
    address is NACKed, and otherwise sends STOP (when asked to) and returns
    the empty list: no byte is clocked in and no handshake is clocked out.
    [i2c_read_words] with [num_words = 0] then returns the empty
    sequence. *)
Theorem zero_length_read
  (bus_addr : Z) (stop : bool) (d : dev) (ack : Z) (rest : list Z) :
  rx d = ack :: rest ->
  let delta :=
    [EvWrite start_cmd_data]
      ++ write_exchange (Z.lor (Z.land bus_addr 0xFE) 1)
      ++ stop_events stop in
  (Z.testbit ack 0 = false ->
   ft_i2c_read_bytes bus_addr 0 stop d
   = (Ok [], {| trace := trace d ++ delta; rx := rest |}))
  /\ (Z.testbit ack 0 = true ->
      fst (ft_i2c_read_bytes bus_addr 0 stop d) = Raise IOError)
  /\ stop_events true = [EvWrite stop_cmd_data]
  /\ decodes delta = true
  /\ Mpsse.byte_reads (ops_of delta) = 0%nat
  /\ Mpsse.handshakes (ops_of delta) = []
  /\ (forall (reg_addr a1 a2 : Z) (d0 : dev),
         0 <= reg_addr < 256 ->
         rx d0 = a1 :: a2 :: ack :: rest ->
         Z.testbit a1 0 = false ->
         Z.testbit a2 0 = false ->
         Z.testbit ack 0 = false ->
         fst (i2c_read_words bus_addr reg_addr 0 d0) = Ok []).
Proof.
  intros Hrx delta. subst delta.
  destruct (stop_events_observed stop) as (Pd & Pb & Ph & Pr).
  repeat apply conj.
  - intros Hack.
    rewrite (@ft_i2c_read_bytes_mock bus_addr 0 stop d ack [] rest);
      auto.
  - intros Hack.
    now rewrite (@ft_i2c_read_bytes_nack bus_addr 0 stop d ack rest).
  - reflexivity.
  - rewrite !decodes_app, Pd. reflexivity.
  - rewrite !ops_of_app, !byte_reads_app, Pr. reflexivity.
  - rewrite !ops_of_app, !handshakes_app, Ph. reflexivity.
  - intros reg_addr a1 a2 d0 Hreg Hrx0 H1 H2 H3.
    now rewrite (@i2c_read_words_mock bus_addr reg_addr 0 d0 a1 a2 ack [] rest).
Qed.

Lemma zero_length_read_witness :
  ft_i2c_read_bytes 0x6C 0 true {| trace := []; rx := [0x00; 0x55] |}
  = (Ok [],
     {| trace := [EvWrite start_cmd_data; EvWrite (write_get_ack_cmd_data 0x6D);
                  EvRead 1; EvWrite stop_cmd_data];
        rx := [0x55] |}).
Proof.
  exact (proj1 (@zero_length_read 0x6C true
                  {| trace := []; rx := [0x00; 0x55] |} 0x00 [0x55] eq_refl)
           eq_refl).
Defined.

(** * Beyond the specification: the engine on every answer of the device *)

(** ** The transactions on an arbitrary response queue *)

Lemma read_loop_mock_any (num_bytes : Z) :
  forall (positions out : list Z) (d : dev),
    for_in positions
      (fun i out_data =>
         b <- ft_i2c_read_give_ack (i =? num_bytes - 1) ;;
         ret (out_data ++ [b]))
      out d
    = if (length positions <=? length (rx d))%nat
      then (Ok (out ++ firstn (length positions) (rx d)),
            {| trace := trace d ++ read_loop positions num_bytes;
               rx := skipn (length positions) (rx d) |})
      else (Raise IndexError,
            {| trace := trace d
                        ++ read_loop (firstn (S (length (rx d))) positions)
                             num_bytes;
               rx := [] |}).
Proof.
  induction positions as [|i ps IH]; intros out d.
  - simpl. unfold ret, read_loop. simpl. rewrite !app_nil_r. now destruct d.
  - cbn [for_in]. unfold bind at 1. unfold bind at 1.
    rewrite ft_i2c_read_give_ack_mock.
    destruct (rx d) as [|b q] eqn:Hrx.
    + simpl. unfold read_loop. simpl. rewrite ?app_nil_r. reflexivity.
    + cbn [index0 tl]. unfold ret at 1. rewrite IH. cbn [rx trace].
      cbn [length Nat.leb firstn skipn].
      unfold read_loop. cbn [flat_map].
      destruct (length ps <=? length q)%nat;
        rewrite <- !app_assoc; reflexivity.
Qed.

Lemma ft_i2c_read_bytes_mock_any
  (bus_addr num_bytes : Z) (stop : bool) (d : dev) :
  ft_i2c_read_bytes bus_addr num_bytes stop d
  = match rx d with
    | [] =>
        (Raise IndexError,
         {| trace := trace d ++ [EvWrite start_cmd_data]
                       ++ write_exchange (dev_addr_byte bus_addr true);
            rx := [] |})
    | r :: q =>
        if Z.testbit r 0 then
          (Raise IOError,
           {| trace := trace d ++ [EvWrite start_cmd_data]
                         ++ write_exchange (dev_addr_byte bus_addr true);
              rx := q |})
        else if (Z.to_nat num_bytes <=? length q)%nat then
          (Ok (firstn (Z.to_nat num_bytes) q),
           {| trace := trace d ++ read_bytes bus_addr num_bytes stop;
              rx := skipn (Z.to_nat num_bytes) q |})
        else
          (Raise IndexError,
           {| trace := trace d ++ [EvWrite start_cmd_data]
                         ++ write_exchange (dev_addr_byte bus_addr true)
                         ++ read_loop (firstn (S (length q)) (range num_bytes))
                              num_bytes;
              rx := [] |})
    end.
Proof.
  unfold ft_i2c_read_bytes. unfold bind at 1.
  rewrite ft_i2c_start_mock. unfold bind at 1.
  rewrite ft_i2c_dev_addr_mock. cbn [rx log trace].
  destruct (rx d) as [|r q]; [now rewrite <- !app_assoc |].
  destruct (Z.testbit r 0); [now rewrite <- !app_assoc |].
  unfold bind at 1. rewrite read_loop_mock_any. cbn [rx trace].
  rewrite range_length.
  destruct (Z.to_nat num_bytes <=? length q)%nat.
  - unfold read_bytes.
    destruct stop; unfold bind; [rewrite ft_i2c_stop_mock |];
      unfold ret, log, stop_events; cbn [app rx trace];
      rewrite <- !app_assoc; cbn [app]; rewrite ?app_nil_r; reflexivity.
  - rewrite <- !app_assoc. reflexivity.
Qed.

Lemma ft_i2c_write_reg_addr_mock_any
  (bus_addr reg_addr : Z) (d : dev) :
  ft_i2c_write_reg_addr bus_addr reg_addr false d
  = match rx d with
    | [] =>
        (Raise IndexError,
         {| trace := trace d ++ [EvWrite start_cmd_data]
                       ++ write_exchange (dev_addr_byte bus_addr false);
            rx := [] |})
    | a1 :: q1 =>
        if Z.testbit a1 0 then
          (Raise IOError,
           {| trace := trace d ++ [EvWrite start_cmd_data]
                         ++ write_exchange (dev_addr_byte bus_addr false);
              rx := q1 |})
        else if is_byte reg_addr then
          match q1 with
          | [] =>
              (Raise IndexError,
               {| trace := trace d ++ write_reg_addr bus_addr reg_addr false;
                  rx := [] |})
          | a2 :: q2 =>
              (if Z.testbit a2 0 then Raise IOError else Ok tt,
               {| trace := trace d ++ write_reg_addr bus_addr reg_addr false;
                  rx := q2 |})
          end
        else
          (Raise ValueError,
           {| trace := trace d ++ [EvWrite start_cmd_data]
                         ++ write_exchange (dev_addr_byte bus_addr false);
              rx := q1 |})
    end.
Proof.
  unfold ft_i2c_write_reg_addr, bind.
  rewrite ft_i2c_start_mock, ft_i2c_dev_addr_mock. cbn [rx log trace].
  destruct (rx d) as [|a1 q1]; [now rewrite <- !app_assoc |].
  destruct (Z.testbit a1 0); [now rewrite <- !app_assoc |].
  rewrite ft_i2c_write_get_ack_mock. cbn [rx trace].
  unfold write_reg_addr, stop_events.
  destruct (is_byte reg_addr); [| now rewrite <- !app_assoc].
  destruct q1 as [|a2 q2].
  - rewrite <- !app_assoc. cbn [app]. reflexivity.
  - destruct (Z.testbit a2 0); unfold ret; rewrite <- !app_assoc;
      cbn [app]; reflexivity.
Qed.

Lemma sbs_block_read_mock_any (bus_addr reg_addr num_bytes : Z) (d : dev) :
  sbs_block_read bus_addr reg_addr num_bytes d
  = match rx d with
    | [] =>
        (Raise IndexError,
         {| trace := trace d ++ [EvWrite start_cmd_data]
                       ++ write_exchange (dev_addr_byte bus_addr false);
            rx := [] |})
    | a1 :: q1 =>
        if Z.testbit a1 0 then
          (Raise IOError,
           {| trace := trace d ++ [EvWrite start_cmd_data]
                         ++ write_exchange (dev_addr_byte bus_addr false);
              rx := q1 |})
        else if is_byte reg_addr then
          match q1 with
          | [] =>
              (Raise IndexError,
               {| trace := trace d ++ write_reg_addr bus_addr reg_addr false;
                  rx := [] |})
          | a2 :: q2 =>
              if Z.testbit a2 0 then
                (Raise IOError,
                 {| trace := trace d ++ write_reg_addr bus_addr reg_addr false;
                    rx := q2 |})
              else
                match q2 with
                | [] =>
                    (Raise IndexError,
                     {| trace := trace d
                                 ++ write_reg_addr bus_addr reg_addr false
                                 ++ [EvWrite start_cmd_data]
                                 ++ write_exchange (dev_addr_byte bus_addr true);
                        rx := [] |})
                | a3 :: q3 =>
                    if Z.testbit a3 0 then
                      (Raise IOError,
                       {| trace := trace d
                                   ++ write_reg_addr bus_addr reg_addr false
                                   ++ [EvWrite start_cmd_data]
                                   ++ write_exchange (dev_addr_byte bus_addr true);
                          rx := q3 |})
                    else if (Z.to_nat num_bytes <=? length q3)%nat then
                      (Ok (firstn (Z.to_nat num_bytes) q3),
                       {| trace := trace d
                                   ++ write_reg_addr bus_addr reg_addr false
                                   ++ read_bytes bus_addr num_bytes true;
                          rx := skipn (Z.to_nat num_bytes) q3 |})
                    else
                      (Raise IndexError,
                       {| trace := trace d
                                   ++ write_reg_addr bus_addr reg_addr false
                                   ++ [EvWrite start_cmd_data]
                                   ++ write_exchange (dev_addr_byte bus_addr true)
                                   ++ read_loop
                                        (firstn (S (length q3)) (range num_bytes))
                                        num_bytes;
                          rx := [] |})
                end
          end
        else
          (Raise ValueError,
           {| trace := trace d ++ [EvWrite start_cmd_data]
                         ++ write_exchange (dev_addr_byte bus_addr false);
              rx := q1 |})
    end.
Proof.
  unfold sbs_block_read, bind. rewrite ft_i2c_write_reg_addr_mock_any.
  destruct (rx d) as [|a1 q1]; [reflexivity |].
  destruct (Z.testbit a1 0); [reflexivity |].
  destruct (is_byte reg_addr); [| reflexivity].
  destruct q1 as [|a2 q2]; [reflexivity |].
  destruct (Z.testbit a2 0); [reflexivity |].
  rewrite ft_i2c_read_bytes_mock_any. cbn [rx trace].
  destruct q2 as [|a3 q3]; [now rewrite <- !app_assoc |].
  destruct (Z.testbit a3 0); [now rewrite <- !app_assoc |].
  destruct (Z.to_nat num_bytes <=? length q3)%nat;
    now rewrite <- !app_assoc.
Qed.

(** A word read is a block read of twice as many bytes followed by the
    decoding, over any transport. *)
Lemma i2c_read_words_via_block
  (T : Type) (TT : Transport T) (bus_addr reg_addr num_words : Z) (t : T) :
  i2c_read_words bus_addr reg_addr num_words t
  = match sbs_block_read bus_addr reg_addr (num_words * 2) t with
    | (Ok rd, t') =>
        (match bytes rd with
         | Ok buf => unpack_le_H num_words buf
         | Raise e => Raise e
         end, t')
    | (Raise e, t') => (Raise e, t')
    end.
Proof.
  unfold i2c_read_words, sbs_block_read, bind, lift.
  destruct (ft_i2c_write_reg_addr bus_addr reg_addr false t) as [[[] | e] t1];
    [| reflexivity].
  destruct (ft_i2c_read_bytes bus_addr (num_words * 2) true t1)
    as [[rd | e] t2]; [| reflexivity].
  destruct (bytes rd); reflexivity.
Qed.

Lemma sbs_word_read_via_words
  (T : Type) (TT : Transport T) (bus_addr reg_addr : Z) (t : T) :
  sbs_word_read bus_addr reg_addr t
  = match i2c_read_words bus_addr reg_addr 1 t with
    | (Ok ws, t') => (index0 ws, t')
    | (Raise e, t') => (Raise e, t')
    end.
Proof.
  unfold sbs_word_read, bind, lift.
  destruct (i2c_read_words bus_addr reg_addr 1 t) as [[ws | e] t']; reflexivity.
Qed.

Lemma unpack_H_length (n : nat) :
  forall (buf : list Z) (ws : list Z),
    unpack_H n buf = Ok ws -> length buf = (2 * n)%nat /\ length ws = n.
Proof.
  induction n as [|n IH]; intros buf ws Hu.
  - destruct buf; [| discriminate]. inversion Hu. now split.
  - destruct buf as [|lo [|hi rest]]; try discriminate.
    cbn [unpack_H] in Hu.
    destruct (unpack_H n rest) as [ws' | e] eqn:E; [| discriminate].
    inversion Hu; subst. destruct (IH rest ws' E) as [Hl Hw].
    cbn [length]. lia.
Qed.

Lemma unpack_H_wrong_length (n : nat) :
  forall buf : list Z,
    length buf <> (2 * n)%nat -> unpack_H n buf = Raise StructError.
Proof.
  induction n as [|n IH]; intros buf Hlen.
  - destruct buf; [now contradiction Hlen | reflexivity].
  - destruct buf as [|lo [|hi rest]]; try reflexivity.
    cbn [unpack_H]. rewrite IH; [reflexivity |]. cbn [length] in Hlen. lia.
Qed.

Lemma firstn_skipn_split {A} (n : nat) (q : list A) :
  (n <= length q)%nat ->
  q = firstn n q ++ skipn n q /\ length (firstn n q) = n.
Proof.
  intros Hn. split; [now rewrite firstn_skipn | now apply firstn_length_le].
Qed.

(** ** Success has one shape *)

Lemma sbs_block_read_inv
  (bus_addr reg_addr num_bytes : Z) (d d' : dev) (raw : list Z) :
  sbs_block_read bus_addr reg_addr num_bytes d = (Ok raw, d') ->
  0 <= reg_addr < 256
  /\ length raw = Z.to_nat num_bytes
  /\ (exists a1 a2 a3 : Z,
         rx d = a1 :: a2 :: a3 :: raw ++ rx d'
         /\ Z.testbit a1 0 = false
         /\ Z.testbit a2 0 = false
         /\ Z.testbit a3 0 = false)
  /\ trace d'
     = trace d ++ write_reg_addr bus_addr reg_addr false
         ++ read_bytes bus_addr num_bytes true.
Proof.
  rewrite sbs_block_read_mock_any.
  destruct (rx d) as [|a1 [|a2 [|a3 q3]]];
    repeat match goal with
           | |- context [if ?c then _ else _] => destruct c eqn:?
           end;
    intros Hrun; inversion Hrun; subst; clear Hrun.
  match goal with
  | H : (_ <=? _)%nat = true |- _ =>
      apply Nat.leb_le in H;
      destruct (@firstn_skipn_split Z (Z.to_nat num_bytes) q3 H)
        as [Hsplit Hlen]
  end.
  cbn [trace rx].
  split; [match goal with
          | H : is_byte _ = true |- _ => exact (proj1 (is_byte_iff _) H)
          end |].
  split; [exact Hlen |].
  split; [| reflexivity].
  exists a1, a2, a3. rewrite <- Hsplit. auto.
Qed.

(** X1.  [sbs_block_read] returns [raw] exactly when the register
    address is a byte, the device answers the write address, the register
    pointer and the read address with bit 0 clear, and [raw] is the next
    [num_bytes] responses, no more and no fewer; the transport is then
    left with the rest of the queue and the trace of one complete
    transaction. *)
Theorem sbs_block_read_success_shape
  (bus_addr reg_addr num_bytes : Z) (d d' : dev) (raw : list Z) :
  sbs_block_read bus_addr reg_addr num_bytes d = (Ok raw, d')
  <->
  (0 <= reg_addr < 256
   /\ length raw = Z.to_nat num_bytes
   /\ (exists a1 a2 a3 : Z,
          rx d = a1 :: a2 :: a3 :: raw ++ rx d'
          /\ Z.testbit a1 0 = false
          /\ Z.testbit a2 0 = false
          /\ Z.testbit a3 0 = false)
   /\ trace d'
      = trace d ++ write_reg_addr bus_addr reg_addr false
          ++ read_bytes bus_addr num_bytes true).
Proof.
  split; [apply sbs_block_read_inv |].
  intros (Hreg & Hlen & (a1 & a2 & a3 & Hrx & H1 & H2 & H3) & Htrace).
  rewrite (@sbs_block_read_mock bus_addr reg_addr num_bytes d a1 a2 a3
             raw (rx d') Hreg Hrx H1 H2 H3 Hlen).
  rewrite <- Htrace. now destruct d'.
Qed.

Example sbs_block_read_success_shape_run :
  sbs_block_read 0x16 0x21 3
    {| trace := []; rx := [0x00; 0x02; 0xFE; 0x41; 0x44; 0x49; 0x99] |}
  = (Ok [0x41; 0x44; 0x49],
     {| trace := write_reg_addr 0x16 0x21 false ++ read_bytes 0x16 3 true;
        rx := [0x99] |}).
Proof. reflexivity. Qed.

(** X2.  Whenever [i2c_read_words] returns, the tuple has exactly
    [num_words] values (none when [num_words <= 0]), each from 0 to 65535,
    and they are the little-endian pairs of the [2*num_words] responses
    that follow the three acknowledge responses; [sbs_word_read] then
    returns a value from 0 to 65535. *)
Theorem i2c_read_words_success_shape (bus_addr reg_addr : Z) (d : dev) :
  (forall (num_words : Z) (ws : list Z) (d' : dev),
      i2c_read_words bus_addr reg_addr num_words d = (Ok ws, d') ->
      length ws = Z.to_nat num_words
      /\ Forall (fun w => 0 <= w < 65536) ws
      /\ exists (a1 a2 a3 : Z) (raw : list Z),
           rx d = a1 :: a2 :: a3 :: raw ++ rx d'
           /\ length raw = (2 * Z.to_nat num_words)%nat
           /\ Forall (fun b => 0 <= b < 256) raw
           /\ ws = words_le raw)
  /\ (forall (w : Z) (d' : dev),
         sbs_word_read bus_addr reg_addr d = (Ok w, d') -> 0 <= w < 65536).
Proof.
  assert (Hwords :
    forall (num_words : Z) (ws : list Z) (d' : dev),
      i2c_read_words bus_addr reg_addr num_words d = (Ok ws, d') ->
      length ws = Z.to_nat num_words
      /\ Forall (fun w => 0 <= w < 65536) ws
      /\ exists (a1 a2 a3 : Z) (raw : list Z),
           rx d = a1 :: a2 :: a3 :: raw ++ rx d'
           /\ length raw = (2 * Z.to_nat num_words)%nat
           /\ Forall (fun b => 0 <= b < 256) raw
           /\ ws = words_le raw).
  { intros num_words ws d' Hrun.
    rewrite i2c_read_words_via_block in Hrun.
    destruct (sbs_block_read bus_addr reg_addr (num_words * 2) d)
      as [[rd | e] d1] eqn:Hblock; [| discriminate].
    unfold bytes in Hrun. destruct (is_bytes rd) eqn:Hb; [| discriminate].
    inversion Hrun as [[Hu Hd]]. subst d1. clear Hrun.
    apply is_bytes_Forall in Hb.
    destruct (@unpack_H_length (Z.to_nat num_words) rd ws Hu) as [Hlen Hws].
    unfold unpack_le_H in Hu.
    rewrite (@unpack_H_words_le (Z.to_nat num_words) rd Hb Hlen) in Hu.
    inversion Hu; subst ws.
    pose proof Hblock as Hshape.
    rewrite sbs_block_read_mock_any in Hshape.
    destruct (rx d) as [|a1 [|a2 [|a3 q3]]];
      repeat match type of Hshape with
             | context [if ?c then _ else _] => destruct c eqn:?
             end;
      inversion Hshape; subst; clear Hshape.
    match goal with
    | H : (_ <=? _)%nat = true |- _ =>
        apply Nat.leb_le in H;
        destruct (@firstn_skipn_split Z (Z.to_nat (num_words * 2)) q3 H)
          as [Hsplit _]
    end.
    cbn [rx].
    split; [assumption |].
    split; [now apply words_le_range |].
    exists a1, a2, a3, (firstn (Z.to_nat (num_words * 2)) q3).
    rewrite <- Hsplit. auto. }
  split; [exact Hwords |].
  intros w d' Hrun. rewrite sbs_word_read_via_words in Hrun.
  destruct (i2c_read_words bus_addr reg_addr 1 d) as [[ws | e] d1] eqn:Hw;
    [| discriminate].
  destruct (Hwords 1 ws d1 Hw) as (_ & Hrange & _).
  destruct ws as [|w0 ws]; [discriminate |].
  inversion Hrun; subst. now inversion Hrange.
Qed.

Lemma i2c_read_words_success_shape_witness :
  length [0x1234; 0x5678] = Z.to_nat 2
  /\ Forall (fun w => 0 <= w < 65536) [0x1234; 0x5678].
Proof.
  destruct (proj1 (@i2c_read_words_success_shape 0x6C 0x00
                     {| trace := []; rx := [0; 0; 0; 0x34; 0x12; 0x78; 0x56] |})
              2 [0x1234; 0x5678]
              {| trace := [] ++ write_reg_addr 0x6C 0x00 false
                            ++ read_bytes 0x6C (2 * 2) true;
                 rx := [] |}
              eq_refl)
    as (Hlen & Hrange & _).
  split; [exact Hlen | exact Hrange].
Defined.

(** ** Counting START and STOP streams *)

Lemma writes_app (t u : list event) : writes (t ++ u) = writes t ++ writes u.
Proof. apply flat_map_app. Qed.

Lemma stops_app (t u : list event) : stops (t ++ u) = (stops t + stops u)%nat.
Proof. unfold stops. now rewrite writes_app, count_occ_app. Qed.


Lemma write_get_ack_cmd_is_no_frame (data : Z) :
  write_get_ack_cmd_data data <> stop_cmd_data
  /\ write_get_ack_cmd_data data <> start_cmd_data.
Proof.
  split; intros E; apply (f_equal (@length Z)) in E; discriminate E.
Qed.


Lemma count_start_frame :
  stops [EvWrite start_cmd_data] = 0%nat
  /\ starts [EvWrite start_cmd_data] = 1%nat.
Proof. split; reflexivity. Qed.


Lemma count_write_exchange (data : Z) :
  stops (write_exchange data) = 0%nat /\ starts (write_exchange data) = 0%nat.
Proof.
  destruct (write_get_ack_cmd_is_no_frame data) as [Hp Hs].
  unfold stops, starts, write_exchange. cbn [writes flat_map app].
  now rewrite !count_occ_cons_neq by assumption.
Qed.






(** ** Word reads through block reads, when the device delivers bytes *)

Lemma sbs_block_read_bytes
  (bus_addr reg_addr num_bytes : Z) (d d' : dev) (rd : list Z) :
  Forall (fun b => 0 <= b < 256) (rx d) ->
  sbs_block_read bus_addr reg_addr num_bytes d = (Ok rd, d') ->
  Forall (fun b => 0 <= b < 256) rd /\ length rd = Z.to_nat num_bytes.
Proof.
  intros Hall Hrun.
  destruct (@sbs_block_read_inv bus_addr reg_addr num_bytes d d' rd Hrun)
    as (_ & Hlen & (a1 & a2 & a3 & Hrx & _) & _).
  split; [| exact Hlen].
  rewrite Hrx in Hall.
  inversion Hall as [|? ? _ Hall1]; subst.
  inversion Hall1 as [|? ? _ Hall2]; subst.
  inversion Hall2 as [|? ? _ Hall3]; subst.
  now apply Forall_app in Hall3 as [Hraw _].
Qed.

Lemma i2c_read_words_of_block
  (bus_addr reg_addr num_words : Z) (d : dev) :
  Forall (fun b => 0 <= b < 256) (rx d) ->
  i2c_read_words bus_addr reg_addr num_words d
  = match sbs_block_read bus_addr reg_addr (num_words * 2) d with
    | (Ok rd, d') => (Ok (words_le rd), d')
    | (Raise e, d') => (Raise e, d')
    end.
Proof.
  intros Hall. rewrite i2c_read_words_via_block.
  destruct (sbs_block_read bus_addr reg_addr (num_words * 2) d)
    as [[rd | e] d'] eqn:Hblock; [| reflexivity].
  destruct (@sbs_block_read_bytes bus_addr reg_addr (num_words * 2) d d' rd
              Hall Hblock) as [Hb Hlen].
  unfold bytes, unpack_le_H.
  rewrite (proj2 (is_bytes_Forall rd) Hb).
  rewrite (@unpack_H_words_le (Z.to_nat num_words) rd Hb); [reflexivity |].
  now rewrite Hlen, to_nat_twice.
Qed.

Lemma sbs_word_read_of_block (bus_addr reg_addr : Z) (d : dev) :
  Forall (fun b => 0 <= b < 256) (rx d) ->
  sbs_word_read bus_addr reg_addr d
  = match sbs_block_read bus_addr reg_addr 2 d with
    | (Ok rd, d') => (Ok (hd 0 (words_le rd)), d')
    | (Raise e, d') => (Raise e, d')
    end.
Proof.
  intros Hall. rewrite sbs_word_read_via_words.
  rewrite (@i2c_read_words_of_block bus_addr reg_addr 1 d Hall).
  change (1 * 2) with 2.
  destruct (sbs_block_read bus_addr reg_addr 2 d) as [[rd | e] d'] eqn:Hblock;
    [| reflexivity].
  destruct (@sbs_block_read_bytes bus_addr reg_addr 2 d d' rd Hall Hblock)
    as [_ Hlen].
  destruct rd as [|lo [|hi [|]]]; try discriminate Hlen. reflexivity.
Qed.

Lemma sbs_block_read_explained
  (bus_addr reg_addr num_bytes : Z) (d : dev) :
  0 <= reg_addr < 256 ->
  explained (fst (sbs_block_read bus_addr reg_addr num_bytes d)) (rx d)
    (Z.to_nat num_bytes).
Proof.
  intros Hreg. apply is_byte_iff in Hreg.
  rewrite sbs_block_read_mock_any, Hreg.
  destruct (rx d) as [|a1 [|a2 [|a3 q3]]];
    repeat match goal with
           | |- context [if ?c then _ else _] => destruct c eqn:?
           end;
    cbn [fst explained length];
    try lia;
    try (exists 0%nat; cbn [nth length]; repeat split; (lia || assumption));
    try (exists 1%nat; cbn [nth length]; repeat split; (lia || assumption));
    try (exists 2%nat; cbn [nth length]; repeat split; (lia || assumption)).
  - match goal with
    | H : (_ <=? _)%nat = true |- _ => apply Nat.leb_le in H
    end.
    split; [lia |].
    intros [|[|[|k]]] Hk; cbn [nth]; (assumption || lia).
  - match goal with
    | H : (_ <=? _)%nat = false |- _ => apply Nat.leb_gt in H
    end.
    lia.
Qed.

(** ** Faults *)

(** X3.  With a register address that is a byte and a device that delivers
    bytes, the three public reads end in one of three ways, each with its
    cause in the response queue: a value, only if the first three
    responses have bit 0 clear and the queue holds all the data bytes;
    [IOError], only if one of the first three responses has bit 0 set;
    [IndexError], only if the queue is shorter than the three acknowledge
    responses and the data bytes.  No other exception is raised. *)
Theorem public_read_faults_explained
  (bus_addr reg_addr num : Z) (d : dev) :
  0 <= reg_addr < 256 ->
  Forall (fun b => 0 <= b < 256) (rx d) ->
  explained (fst (sbs_block_read bus_addr reg_addr num d)) (rx d) (Z.to_nat num)
  /\ explained (fst (i2c_read_words bus_addr reg_addr num d)) (rx d)
       (Z.to_nat (num * 2))
  /\ explained (fst (sbs_word_read bus_addr reg_addr d)) (rx d) 2.
Proof.
  intros Hreg Hall. repeat apply conj.
  - now apply sbs_block_read_explained.
  - rewrite (@i2c_read_words_of_block bus_addr reg_addr num d Hall).
    pose proof (@sbs_block_read_explained bus_addr reg_addr (num * 2) d Hreg)
      as Hex.
    destruct (sbs_block_read bus_addr reg_addr (num * 2) d) as [[rd | e] d'];
      exact Hex.
  - rewrite (@sbs_word_read_of_block bus_addr reg_addr d Hall).
    pose proof (@sbs_block_read_explained bus_addr reg_addr 2 d Hreg) as Hex.
    destruct (sbs_block_read bus_addr reg_addr 2 d) as [[rd | e] d'];
      exact Hex.
Qed.

Lemma public_read_faults_explained_witness :
  explained (fst (i2c_read_words 0x6C 0x00 2
                    {| trace := []; rx := [0; 0; 0; 0x34; 0x12; 0x78] |}))
    [0; 0; 0; 0x34; 0x12; 0x78] (Z.to_nat (2 * 2))
  /\ explained (fst (sbs_word_read 0x16 0x09
                       {| trace := []; rx := [0; 0; 1; 0x34; 0x12] |}))
       [0; 0; 1; 0x34; 0x12] 2.
Proof.
  split.
  - refine (proj1 (proj2 (@public_read_faults_explained 0x6C 0x00 2
                            {| trace := []; rx := [0; 0; 0; 0x34; 0x12; 0x78] |}
                            _ _))); [lia | repeat constructor; lia].
  - refine (proj2 (proj2 (@public_read_faults_explained 0x16 0x09 0
                            {| trace := []; rx := [0; 0; 1; 0x34; 0x12] |}
                            _ _))); [lia | repeat constructor; lia].
Defined.



(** X5.  A NACK on the register pointer, or on the address byte of the
    read phase, ends each public read with [IOError] at that point: the
    trace stops after the exchange that was refused, no data byte is
    clocked in and no handshake is clocked out. *)
Theorem later_nack_aborts
  (bus_addr reg_addr num : Z) (d : dev) (a1 a2 : Z) (q : list Z) :
  0 <= reg_addr < 256 ->
  rx d = a1 :: a2 :: q ->
  Z.testbit a1 0 = false ->
  (Z.testbit a2 0 = true ->
   let d' := {| trace := trace d ++ write_reg_addr bus_addr reg_addr false;
                rx := q |} in
   sbs_block_read bus_addr reg_addr num d = (Raise IOError, d')
   /\ i2c_read_words bus_addr reg_addr num d = (Raise IOError, d')
   /\ sbs_word_read bus_addr reg_addr d = (Raise IOError, d'))
  /\ (Z.testbit a2 0 = false ->
      forall (a3 : Z) (q3 : list Z),
        q = a3 :: q3 ->
        Z.testbit a3 0 = true ->
        let delta :=
          write_reg_addr bus_addr reg_addr false
            ++ [EvWrite start_cmd_data]
            ++ write_exchange (Z.lor (Z.land bus_addr 0xFE) 1) in
        let d' := {| trace := trace d ++ delta; rx := q3 |} in
        sbs_block_read bus_addr reg_addr num d = (Raise IOError, d')
        /\ i2c_read_words bus_addr reg_addr num d = (Raise IOError, d')
        /\ sbs_word_read bus_addr reg_addr d = (Raise IOError, d')
        /\ Mpsse.byte_reads (ops_of delta) = 0%nat
        /\ Mpsse.handshakes (ops_of delta) = [])
  /\ Mpsse.byte_reads (ops_of (write_reg_addr bus_addr reg_addr false)) = 0%nat
  /\ Mpsse.handshakes (ops_of (write_reg_addr bus_addr reg_addr false)) = [].
Proof.
  intros Hreg Hrx H1. apply is_byte_iff in Hreg.
  repeat apply conj.
  - intros H2 d'. subst d'.
    rewrite sbs_word_read_via_words, !i2c_read_words_via_block,
      !sbs_block_read_mock_any, Hrx, H1, Hreg, H2.
    repeat split.
  - intros H2 a3 q3 -> H3 delta d'. subst delta d'.
    destruct (write_reg_addr_observed bus_addr reg_addr false)
      as (_ & _ & Wh & Wr).
    destruct start_observed as (_ & _ & Sh & Sr).
    destruct (write_exchange_observed (Z.lor (Z.land bus_addr 254) 1))
      as (_ & _ & Eh & Er).
    rewrite sbs_word_read_via_words, !i2c_read_words_via_block,
      !sbs_block_read_mock_any, Hrx, H1, Hreg, H2, H3.
    rewrite !ops_of_app, !byte_reads_app, !handshakes_app,
      Wh, Wr, Sh, Sr, Eh, Er.
    repeat split.
  - apply write_reg_addr_observed.
  - apply write_reg_addr_observed.
Qed.

Lemma later_nack_aborts_witness :
  sbs_word_read 0x16 0x09 {| trace := []; rx := [0x00; 0x01; 0x55] |}
  = (Raise IOError,
     {| trace := [] ++ write_reg_addr 0x16 0x09 false; rx := [0x55] |}).
Proof.
  refine (proj2 (proj2 (proj1 (@later_nack_aborts 0x16 0x09 0
                                 {| trace := []; rx := [0x00; 0x01; 0x55] |}
                                 0x00 0x01 [0x55] _ eq_refl eq_refl)
                          eq_refl))).
  lia.
Defined.

(** X6.  A register address outside 0..255 is found out only when its
    stream is converted to bytes: START and the write address have been
    sent and acknowledged by then.  Each public read raises [ValueError]
    there, the register pointer is never written, and no STOP follows.  If
    the device refuses the address first, the [IOError] of the NACK is
    what the caller sees. *)
Theorem bad_register_address_is_found_late
  (bus_addr reg_addr num : Z) (d : dev) (a1 : Z) (q : list Z) :
  ~ (0 <= reg_addr < 256) ->
  rx d = a1 :: q ->
  let delta :=
    [EvWrite start_cmd_data] ++ write_exchange (Z.land bus_addr 0xFE) in
  let d' := {| trace := trace d ++ delta; rx := q |} in
  (Z.testbit a1 0 = false ->
   sbs_block_read bus_addr reg_addr num d = (Raise ValueError, d')
   /\ i2c_read_words bus_addr reg_addr num d = (Raise ValueError, d')
   /\ sbs_word_read bus_addr reg_addr d = (Raise ValueError, d'))
  /\ (Z.testbit a1 0 = true ->
      sbs_block_read bus_addr reg_addr num d = (Raise IOError, d')
      /\ i2c_read_words bus_addr reg_addr num d = (Raise IOError, d')
      /\ sbs_word_read bus_addr reg_addr d = (Raise IOError, d'))
  /\ Mpsse.bytes_out (ops_of delta) = [Z.land bus_addr 0xFE]
  /\ stops delta = 0%nat.
Proof.
  intros Hreg Hrx delta d'. subst delta d'.
  assert (Hb : is_byte reg_addr = false).
  { destruct (is_byte reg_addr) eqn:E; [| reflexivity].
    apply is_byte_iff in E. contradiction. }
  repeat apply conj.
  - intros H1.
    rewrite sbs_word_read_via_words, !i2c_read_words_via_block,
      !sbs_block_read_mock_any, Hrx, H1, Hb.
    repeat split.
  - intros H1.
    rewrite sbs_word_read_via_words, !i2c_read_words_via_block,
      !sbs_block_read_mock_any, Hrx, H1.
    repeat split.
  - reflexivity.
  - destruct count_start_frame as [Sp _].
    destruct (count_write_exchange (Z.land bus_addr 254)) as [Ap _].
    now rewrite stops_app, Sp, Ap.
Qed.

Lemma bad_register_address_is_found_late_witness :
  i2c_read_words 0x6C 0x180 16 {| trace := []; rx := [0x00; 0x00; 0x00] |}
  = (Raise ValueError,
     {| trace := [EvWrite start_cmd_data;
                  EvWrite (write_get_ack_cmd_data 0x6C); EvRead 1];
        rx := [0x00; 0x00] |}).
Proof.
  refine (proj1 (proj2 (proj1 (@bad_register_address_is_found_late
                                 0x6C 0x180 16
                                 {| trace := []; rx := [0x00; 0x00; 0x00] |}
                                 0x00 [0x00; 0x00] _ eq_refl)
                          eq_refl))).
  lia.
Defined.

(** ** Properties of the trace kept by composition *)

Section Keeps.

Variable P : list event -> Prop.
Hypothesis P_nil : P [].
Hypothesis P_app : forall t u, P t -> P u -> P (t ++ u).

Lemma keeps_ret {A} (a : A) : keeps P (ret a).
Proof. intros d. exists []. now rewrite app_nil_r. Qed.

Lemma keeps_raise {A} (e : exn) : keeps P (@raise dev A e).
Proof. intros d. exists []. now rewrite app_nil_r. Qed.

Lemma keeps_lift {A} (r : result A) : keeps P (lift r).
Proof. intros d. exists []. now rewrite app_nil_r. Qed.

Lemma keeps_bind {A B} (m : M dev A) (k : A -> M dev B) :
  keeps P m -> (forall a, keeps P (k a)) -> keeps P (bind m k).
Proof.
  intros Hm Hk d. unfold bind.
  destruct (Hm d) as (t & Et & Ht).
  destruct (m d) as [[a | e] d1]; simpl in Et.
  - destruct (Hk a d1) as (u & Eu & Hu).
    exists (t ++ u). rewrite Eu, Et, app_assoc. split; [reflexivity | auto].
  - exists t. now split.
Qed.

Lemma keeps_for_in {A B} (body : A -> B -> M dev B) :
  (forall x acc, keeps P (body x acc)) ->
  forall (xs : list A) (acc : B), keeps P (for_in xs body acc).
Proof.
  intros Hbody. induction xs as [|x xs IH]; intros acc; cbn [for_in].
  - apply keeps_ret.
  - apply keeps_bind; [apply Hbody | intros acc'; apply IH].
Qed.

Lemma keeps_ft_write (data : list Z) :
  P [EvWrite data] -> keeps P (ft_write data).
Proof.
  intros Hdata d. rewrite ft_write_mock. destruct (is_bytes data).
  - exists [EvWrite data]. now split.
  - exists []. now rewrite app_nil_r.
Qed.

End Keeps.

Lemma all_streams_safe_nil : all_streams_safe [].
Proof. reflexivity. Qed.

Lemma all_streams_safe_app (t u : list event) :
  all_streams_safe t -> all_streams_safe u -> all_streams_safe (t ++ u).
Proof.
  unfold all_streams_safe. intros Ht Hu.
  now rewrite writes_app, forallb_app, Ht, Hu.
Qed.

Lemma write_get_ack_streams_safe (data : Z) :
  keeps all_streams_safe (ft_i2c_write_get_ack data).
Proof.
  intros d. rewrite ft_i2c_write_get_ack_mock. destruct (is_byte data).
  - exists (write_exchange data). split; [now destruct (rx d) |].
    unfold all_streams_safe, write_exchange. cbn [writes flat_map app forallb].
    unfold stream_safe.
    destruct (list_eq_dec Z.eq_dec (write_get_ack_cmd_data data) stop_cmd_data)
      as [E | _]; [now apply write_get_ack_cmd_is_no_frame in E |].
    reflexivity.
  - exists []. now rewrite app_nil_r.
Qed.

Lemma read_give_ack_streams_safe (nack : bool) :
  keeps all_streams_safe (ft_i2c_read_give_ack nack).
Proof.
  intros d. rewrite ft_i2c_read_give_ack_mock.
  exists (read_exchange nack). split; [reflexivity |].
  destruct nack; reflexivity.
Qed.

Lemma start_streams_safe : keeps all_streams_safe ft_i2c_start.
Proof.
  intros d. rewrite ft_i2c_start_mock. exists [EvWrite start_cmd_data].
  split; reflexivity.
Qed.

Lemma stop_streams_safe : keeps all_streams_safe ft_i2c_stop.
Proof.
  intros d. rewrite ft_i2c_stop_mock. exists [EvWrite stop_cmd_data].
  split; reflexivity.
Qed.

Lemma safe_ret {A} (a : A) : keeps all_streams_safe (ret a).
Proof. apply keeps_ret. exact all_streams_safe_nil. Qed.

Lemma safe_lift {A} (r : result A) : keeps all_streams_safe (lift r).
Proof. apply keeps_lift. exact all_streams_safe_nil. Qed.

Lemma safe_bind {A B} (m : M dev A) (k : A -> M dev B) :
  keeps all_streams_safe m ->
  (forall a, keeps all_streams_safe (k a)) ->
  keeps all_streams_safe (bind m k).
Proof. apply keeps_bind. exact all_streams_safe_app. Qed.

Lemma safe_for_in {A B} (body : A -> B -> M dev B) :
  (forall x acc, keeps all_streams_safe (body x acc)) ->
  forall (xs : list A) (acc : B), keeps all_streams_safe (for_in xs body acc).
Proof.
  apply keeps_for_in; [exact all_streams_safe_nil | exact all_streams_safe_app].
Qed.

Create HintDb wire.
#[local] Hint Resolve safe_ret safe_lift safe_bind safe_for_in
  write_get_ack_streams_safe read_give_ack_streams_safe
  start_streams_safe stop_streams_safe : wire.

(** X7.  Every stream a public read writes, on every answer of the device,
    keeps the electrical discipline of the bus: clocking happens only
    while the master holds SCL low; SDA is an input whenever a bit or a
    byte is clocked in; SDA is driven while a byte is clocked out and
    while ACK is sent, and is left to the pull-up while NACK is sent;
    every stream but STOP ends with SCL held low, and STOP ends with both
    lines high and released. *)
Theorem public_reads_keep_line_discipline (bus_addr reg_addr num : Z) :
  keeps all_streams_safe (sbs_block_read bus_addr reg_addr num)
  /\ keeps all_streams_safe (i2c_read_words bus_addr reg_addr num)
  /\ keeps all_streams_safe (sbs_word_read bus_addr reg_addr).
Proof.
  assert (Hw : keeps all_streams_safe
                 (ft_i2c_write_reg_addr bus_addr reg_addr false)).
  { unfold ft_i2c_write_reg_addr, ft_i2c_dev_addr. auto 10 with wire. }
  assert (Hr : forall n, keeps all_streams_safe
                           (ft_i2c_read_bytes bus_addr n true)).
  { intros n. unfold ft_i2c_read_bytes, ft_i2c_dev_addr. auto 12 with wire. }
  repeat apply conj.
  - unfold sbs_block_read. auto 10 with wire.
  - unfold i2c_read_words. auto 10 with wire.
  - unfold sbs_word_read, i2c_read_words. auto 10 with wire.
Qed.

(** * Beyond the specification: the native backend *)

(** X8.  The native backend trusts the bus for a block read and returns
    whatever arrives, of any length; a word read raises [StructError]
    unless exactly [2*num_words] bytes arrive, and [sbs_word_read] unless
    exactly two do.  A fault of the bus call reaches the caller
    unchanged, with the bus as the call left it. *)
Theorem native_reads_outcome
  (B : Type) (NB : SMBus B) (b : B) (bus_addr reg_addr num : Z) :
  (forall (raw : list Z) (b' : B),
      read_i2c_block_data (Z.shiftr bus_addr 1) reg_addr num b = (Ok raw, b') ->
      Forall (fun x => 0 <= x < 256) raw ->
      smbus2_i2c.sbs_block_read bus_addr reg_addr num b = (Ok raw, b'))
  /\ (forall (raw : list Z) (b' : B),
         read_i2c_block_data (Z.shiftr bus_addr 1) reg_addr (num * 2) b
         = (Ok raw, b') ->
         Forall (fun x => 0 <= x < 256) raw ->
         smbus2_i2c.i2c_read_words bus_addr reg_addr num b
         = (if (length raw =? 2 * Z.to_nat num)%nat
            then Ok (words_le raw) else Raise StructError, b'))
  /\ (forall (raw : list Z) (b' : B),
         read_i2c_block_data (Z.shiftr bus_addr 1) reg_addr 2 b = (Ok raw, b') ->
         Forall (fun x => 0 <= x < 256) raw ->
         smbus2_i2c.sbs_word_read bus_addr reg_addr b
         = (match raw with
            | [lo; hi] => Ok (Z.lor lo (Z.shiftl hi 8))
            | _ => Raise StructError
            end, b'))
  /\ (forall (e : exn) (b' : B),
         (read_i2c_block_data (Z.shiftr bus_addr 1) reg_addr num b
          = (Raise e, b') ->
          smbus2_i2c.sbs_block_read bus_addr reg_addr num b = (Raise e, b'))
         /\ (read_i2c_block_data (Z.shiftr bus_addr 1) reg_addr (num * 2) b
             = (Raise e, b') ->
             smbus2_i2c.i2c_read_words bus_addr reg_addr num b = (Raise e, b'))
         /\ (read_i2c_block_data (Z.shiftr bus_addr 1) reg_addr 2 b
             = (Raise e, b') ->
             smbus2_i2c.sbs_word_read bus_addr reg_addr b = (Raise e, b'))).
Proof.
  repeat apply conj.
  - intros raw b' Hrd Hall.
    unfold smbus2_i2c.sbs_block_read, bind, lift, bytes.
    now rewrite Hrd, (proj2 (is_bytes_Forall raw) Hall).
  - intros raw b' Hrd Hall.
    unfold smbus2_i2c.i2c_read_words, bind, lift, bytes, unpack_le_H.
    rewrite Hrd, (proj2 (is_bytes_Forall raw) Hall).
    destruct (Nat.eqb_spec (length raw) (2 * Z.to_nat num)) as [E | E].
    + now rewrite (@unpack_H_words_le (Z.to_nat num) raw Hall E).
    + now rewrite (@unpack_H_wrong_length (Z.to_nat num) raw E).
  - intros raw b' Hrd Hall.
    unfold smbus2_i2c.sbs_word_read, bind, lift, bytes, unpack_le_H.
    rewrite Hrd, (proj2 (is_bytes_Forall raw) Hall).
    change (Z.to_nat 1) with 1%nat.
    destruct raw as [|lo [|hi [|x raw]]]; cbn [unpack_H index0];
      try reflexivity.
    inversion Hall as [|? ? Hlo _]; subst.
    now rewrite (@le16_lor lo hi Hlo).
  - intros e b'. repeat apply conj; intros Hrd.
    + unfold smbus2_i2c.sbs_block_read, bind. now rewrite Hrd.
    + unfold smbus2_i2c.i2c_read_words, bind. now rewrite Hrd.
    + unfold smbus2_i2c.sbs_word_read, bind. now rewrite Hrd.
Qed.

Lemma native_reads_outcome_witness :
  smbus2_i2c.i2c_read_words 0x6C 0x00 2 (fun _ _ : Z => [0x34; 0x12; 0x78])
  = (Raise StructError, fun _ _ : Z => [0x34; 0x12; 0x78])
  /\ smbus2_i2c.sbs_block_read 0x16 0x20 5 (fun _ _ : Z => [0x34; 0x12; 0x78])
     = (Ok [0x34; 0x12; 0x78], fun _ _ : Z => [0x34; 0x12; 0x78]).
Proof.
  split.
  - refine (proj1 (proj2 (@native_reads_outcome bus smbus
                            (fun _ _ : Z => [0x34; 0x12; 0x78]) 0x6C 0x00 2))
              [0x34; 0x12; 0x78] _ eq_refl _).
    repeat constructor; lia.
  - refine (proj1 (@native_reads_outcome bus smbus
                     (fun _ _ : Z => [0x34; 0x12; 0x78]) 0x16 0x20 5)
              [0x34; 0x12; 0x78] _ eq_refl _).
    repeat constructor; lia.
Defined.

(** X9.  On the native backend, which reads the word with a bus call of
    its own, [sbs_word_read] is element 0 of [i2c_read_words] for one
    word: the same bus call, the same value or the same exception, over
    any bus. *)
Theorem native_word_read_is_first_word
  (B : Type) (NB : SMBus B) (b : B) (bus_addr reg_addr : Z) :
  smbus2_i2c.sbs_word_read bus_addr reg_addr b
  = match smbus2_i2c.i2c_read_words bus_addr reg_addr 1 b with
    | (Ok ws, b') => (index0 ws, b')
    | (Raise e, b') => (Raise e, b')
    end.
Proof.
  unfold smbus2_i2c.sbs_word_read, smbus2_i2c.i2c_read_words, bind, lift.
  change (1 * 2) with 2.
  destruct (read_i2c_block_data (Z.shiftr bus_addr 1) reg_addr 2 b)
    as [[rd | e] b']; [| reflexivity].
  destruct (bytes rd) as [buf | e]; [| reflexivity].
  destruct (unpack_le_H 1 buf); reflexivity.
Qed.

(** * Beyond the specification: the logger's rows *)

Import max1730x_regs max1730x_logger.

(** ** Hexadecimal fields *)

Lemma range_in (n v : Z) : 0 <= v < n -> In v (range n).
Proof.
  intros Hv. unfold range. apply in_map_iff. exists (Z.to_nat v).
  split; [lia | apply in_seq; lia].
Qed.

Lemma hex_value_digit (v : Z) :
  0 <= v < 16 -> hex_value (hex_digit v) = Some v.
Proof.
  intros Hv.
  assert (Hall : forallb (fun v => match hex_value (hex_digit v) with
                                   | Some u => u =? v
                                   | None => false
                                   end) (range 16) = true) by reflexivity.
  rewrite forallb_forall in Hall. specialize (Hall v (range_in Hv)).
  destruct (hex_value (hex_digit v)) as [u |]; [| discriminate].
  apply Z.eqb_eq in Hall. now subst.
Qed.

Lemma string_length_append (s t : String.string) :
  String.length (String.append s t) = (String.length s + String.length t)%nat.
Proof. induction s as [|c s IH]; cbn; [reflexivity | now rewrite IH]. Qed.

Lemma string_append_assoc (s t u : String.string) :
  String.append (String.append s t) u = String.append s (String.append t u).
Proof. induction s as [|c s IH]; cbn; [reflexivity | now rewrite IH]. Qed.

Lemma string_append_nil_r (s : String.string) :
  String.append s String.EmptyString = s.
Proof. induction s as [|c s IH]; cbn; [reflexivity | now rewrite IH]. Qed.

Lemma zeros_length (k : nat) : String.length (zeros k) = k.
Proof. induction k as [|k IH]; cbn; [reflexivity | now rewrite IH]. Qed.

Lemma parse_hex_from_app (s t : String.string) :
  forall a : Z,
    parse_hex_from (String.append s t) a
    = match parse_hex_from s a with
      | Some v => parse_hex_from t v
      | None => None
      end.
Proof.
  induction s as [|c s IH]; intros a; cbn; [reflexivity |].
  destruct (hex_value c); [apply IH | reflexivity].
Qed.

Lemma parse_hex_from_zeros (k : nat) : parse_hex_from (zeros k) 0 = Some 0.
Proof. induction k as [|k IH]; [reflexivity | exact IH]. Qed.

(** The digits written for [n]: they read back as [n] shifted in behind
    whatever was read before, and there are no more of them than [n]
    needs. *)
Lemma hex_digits_spec :
  forall (fuel : nat) (n : Z) (acc : String.string),
    0 <= n < 2 ^ Z.of_nat fuel ->
    exists s : String.string,
      hex_digits fuel n acc = String.append s acc
      /\ (forall a, parse_hex_from s a
                    = Some (a * 16 ^ Z.of_nat (String.length s) + n))
      /\ (forall k : nat, n < 16 ^ Z.of_nat k -> (String.length s <= k)%nat)
      /\ (0 < n -> s <> String.EmptyString).
Proof.
  induction fuel as [|fuel IH]; intros n acc Hn.
  - exists String.EmptyString. cbn in Hn. assert (n = 0) by lia. subst n.
    repeat split; cbn; intros; (f_equal; lia) || lia.
  - cbn [hex_digits]. destruct (Z.eqb_spec n 0) as [-> | Hnz].
    + exists String.EmptyString.
      repeat split; cbn; intros; (f_equal; lia) || lia.
    + assert (Hdiv : 0 <= n / 16 < 2 ^ Z.of_nat fuel).
      { split; [apply Z.div_pos; lia |].
        apply Z.div_lt_upper_bound; [lia |].
        rewrite Nat2Z.inj_succ, Z.pow_succ_r in Hn by lia. lia. }
      destruct (IH (n / 16) (String.String (hex_digit (n mod 16)) acc) Hdiv)
        as (s' & Hs & Hparse & Hlen & _).
      set (digit := String.String (hex_digit (n mod 16)) String.EmptyString).
      exists (String.append s' digit).
      assert (Hmod : 0 <= n mod 16 < 16) by (apply Z.mod_pos_bound; lia).
      repeat split.
      * rewrite Hs, string_append_assoc. reflexivity.
      * intros a. rewrite parse_hex_from_app, Hparse. unfold digit.
        cbn [parse_hex_from]. rewrite (hex_value_digit Hmod).
        f_equal. rewrite string_length_append. cbn [String.length].
        fold digit. unfold digit. cbn [String.length].
        rewrite Nat2Z.inj_add, Z.pow_add_r by lia.
        change (16 ^ Z.of_nat 1) with 16.
        pose proof (Z.div_mod n 16 ltac:(lia)) as Hdm. nia.
      * intros k Hk. rewrite string_length_append. unfold digit.
        cbn [String.length].
        destruct k as [|k]; [cbn in Hk; lia |].
        assert (Hk' : n / 16 < 16 ^ Z.of_nat k).
        { apply Z.div_lt_upper_bound; [lia |].
          rewrite Nat2Z.inj_succ, Z.pow_succ_r in Hk by lia. lia. }
        specialize (Hlen k Hk'). lia.
      * intros _. destruct s'; discriminate.
Qed.

Lemma hex_upper_spec (x : Z) :
  0 <= x ->
  hex_upper x <> String.EmptyString
  /\ parse_hex_from (hex_upper x) 0 = Some x
  /\ (forall k : nat,
         (0 < k)%nat -> x < 16 ^ Z.of_nat k ->
         (String.length (hex_upper x) <= k)%nat).
Proof.
  intros Hx. unfold hex_upper. destruct (Z.eqb_spec x 0) as [-> | Hnz].
  - repeat split; [discriminate | cbn; lia].
  - assert (Hfuel : 0 <= x < 2 ^ Z.of_nat (S (Z.to_nat (Z.log2 x)))).
    { rewrite Nat2Z.inj_succ, Z2Nat.id by apply Z.log2_nonneg.
      pose proof (Z.log2_spec x ltac:(lia)). lia. }
    destruct (@hex_digits_spec (S (Z.to_nat (Z.log2 x))) x
                String.EmptyString Hfuel)
      as (s & Hs & Hparse & Hlen & Hne).
    rewrite Hs, string_append_nil_r. repeat split.
    + apply Hne. lia.
    + rewrite Hparse. f_equal; lia.
    + intros k _ Hk. now apply Hlen.
Qed.

Lemma format_byte_pair (b : Z) :
  0 <= b < 256 ->
  exists c1 c2 hi lo,
    format_0X 2 b = String.String c1 (String.String c2 String.EmptyString)
    /\ hex_value c1 = Some hi /\ hex_value c2 = Some lo /\ 16 * hi + lo = b.
Proof.
  intros Hb.
  assert (Hall :
    forallb (fun b =>
               match format_0X 2 b with
               | String.String c1 (String.String c2 String.EmptyString) =>
                   match hex_value c1, hex_value c2 with
                   | Some hi, Some lo => 16 * hi + lo =? b
                   | _, _ => false
                   end
               | _ => false
               end) (range 256) = true) by (vm_compute; reflexivity).
  rewrite forallb_forall in Hall. specialize (Hall b (range_in Hb)).
  destruct (format_0X 2 b) as [|c1 [|c2 [|]]]; try discriminate.
  destruct (hex_value c1) as [hi |] eqn:H1; [| discriminate].
  destruct (hex_value c2) as [lo |] eqn:H2; [| discriminate].
  apply Z.eqb_eq in Hall. exists c1, c2, hi, lo. auto.
Qed.

Lemma concat_cons (x : String.string) (xs : list String.string) :
  String.concat String.EmptyString (x :: xs)
  = String.append x (String.concat String.EmptyString xs).
Proof.
  destruct xs as [|y xs]; cbn [String.concat];
    [now rewrite string_append_nil_r | reflexivity].
Qed.

(** X10.  The hexadecimal fields of a row lose nothing.  A non-negative
    value formatted at any width reads back as itself; a value from 0 to
    65535, which is what a word read returns, fills exactly four
    characters; and the field of a block read has two characters per byte
    and reads back as the bytes in order. *)
Theorem hex_fields_round_trip :
  (forall (width : nat) (x : Z),
      0 <= x -> parse_hex (format_0X width x) = Some x)
  /\ (forall w : Z, 0 <= w < 65536 -> String.length (format_0X 4 w) = 4%nat)
  /\ (forall reg_data : list Z,
         Forall (fun b => 0 <= b < 256) reg_data ->
         let field :=
           String.concat String.EmptyString (map (format_0X 2) reg_data) in
         parse_block field = Some reg_data
         /\ String.length field = (2 * length reg_data)%nat).
Proof.
  repeat apply conj.
  - intros width x Hx. unfold format_0X.
    rewrite (proj2 (Z.ltb_ge x 0) Hx), Z.abs_eq by assumption.
    destruct (hex_upper_spec Hx) as (Hne & Hparse & _).
    assert (Hparse' :
      parse_hex_from
        (String.append (zeros (width - String.length (hex_upper x)))
           (hex_upper x)) 0 = Some x)
      by now rewrite parse_hex_from_app, parse_hex_from_zeros.
    unfold parse_hex.
    destruct (String.append _ (hex_upper x)) eqn:E; [| exact Hparse'].
    destruct (zeros (width - String.length (hex_upper x)));
      [cbn in E; contradiction | discriminate E].
  - intros w Hw. unfold format_0X.
    rewrite (proj2 (Z.ltb_ge w 0)), Z.abs_eq by lia.
    destruct (@hex_upper_spec w ltac:(lia)) as (Hne & _ & Hlen).
    specialize (Hlen 4%nat ltac:(lia) ltac:(cbn; lia)).
    rewrite string_length_append, zeros_length. lia.
  - intros reg_data Hall field. subst field.
    induction Hall as [|b l Hb Hall [IHp IHl]]; [split; reflexivity |].
    cbn [map]. rewrite concat_cons.
    destruct (format_byte_pair Hb) as (c1 & c2 & hi & lo & -> & H1 & H2 & E).
    cbn [String.append parse_block String.length].
    rewrite H1, H2, IHp, IHl, E. split; [reflexivity | cbn [length]; lia].
Qed.

Lemma hex_fields_round_trip_witness :
  parse_hex (format_0X 4 0xBEEF) = Some 0xBEEF
  /\ String.length (format_0X 4 0x2A) = 4%nat
  /\ parse_block
       (String.concat String.EmptyString (map (format_0X 2) [0x0A; 0xFF; 0x10]))
     = Some [0x0A; 0xFF; 0x10].
Proof.
  split; [| split].
  - apply (proj1 hex_fields_round_trip). lia.
  - apply (proj1 (proj2 hex_fields_round_trip)). lia.
  - apply (proj2 (proj2 hex_fields_round_trip) [0x0A; 0xFF; 0x10]).
    repeat constructor; lia.
Defined.

(** ** Rows and headers *)

Lemma page_header_fields_length (keep_rsvd : bool) (base : Z) :
  forall (names : list (option String.string)) (idx : Z),
    length (page_header_fields keep_rsvd base idx names)
    = length (filter (fun r => match r with
                               | Some _ => true
                               | None => keep_rsvd
                               end) names).
Proof.
  induction names as [|r names IH]; intros idx; [reflexivity |].
  cbn [page_header_fields filter]. rewrite length_app, IH.
  destruct r as [name |]; [reflexivity | destruct keep_rsvd; reflexivity].
Qed.

Lemma skipn_nth_error_cons {A} (l : list A) :
  forall (idx : nat) (x : A),
    nth_error l idx = Some x -> skipn idx l = x :: skipn (S idx) l.
Proof.
  induction l as [|y l IH]; intros [|idx] x Hx; try discriminate.
  - inversion Hx. reflexivity.
  - cbn [nth_error] in Hx. cbn [skipn]. now apply IH.
Qed.

Lemma named_words_length (names : list (option String.string)) :
  forall (reg_data : list Z) (idx : nat) (fields : list String.string),
    named_words names idx reg_data = Ok fields ->
    length fields
    = length (filter (fun r => match r with
                               | Some _ => true
                               | None => false
                               end)
                (firstn (length reg_data) (skipn idx names))).
Proof.
  induction reg_data as [|w rest IH]; intros idx fields Hrun.
  - inversion Hrun. reflexivity.
  - cbn [named_words] in Hrun.
    destruct (nth_error names idx) as [r |] eqn:Hnth; [| discriminate].
    destruct (named_words names (S idx) rest) as [fields' | e] eqn:Hrest;
      [| discriminate].
    inversion Hrun; subst fields. clear Hrun.
    rewrite (skipn_nth_error_cons names idx Hnth).
    cbn [length firstn filter]. specialize (IH (S idx) fields' Hrest).
    destruct r as [name |]; cbn [length]; now rewrite IH.
Qed.

Lemma filter_true_length (names : list (option String.string)) :
  length (filter (fun r => match r with
                           | Some _ => true
                           | None => true
                           end) names)
  = length names.
Proof.
  induction names as [|[name |] names IH]; cbn [filter length]; congruence.
Qed.

Section AnyBus.

Context {S : Type} {bus : i2c_iface.I_I2C S}.

(** The one thing the rows need of a backend: a word read that returns
    has returned as many words as were asked for. *)
Hypothesis words_as_asked :
  forall (bus_addr reg_addr num_words : Z) (s s' : S) (ws : list Z),
    i2c_iface.i2c_read_words bus_addr reg_addr num_words s = (Ok ws, s') ->
    length ws = Z.to_nat num_words.

Variable keep_rsvd : bool.

Lemma log_page_length
  (page : RegisterPage) (row row' : list String.string) (s s' : S) :
  length (reg_names page) = 16%nat ->
  log_page keep_rsvd page row s = (Ok row', s') ->
  length row'
  = (length row
     + length (page_header_fields keep_rsvd (base_addr page) 0
                 (reg_names page)))%nat.
Proof.
  intros Hnames. unfold log_page, bind.
  destruct (i2c_iface.i2c_read_words (dev_addr page)
              (Z.land (base_addr page) 255) 16 s)
    as [[ws | e] s1] eqn:Hread; [| discriminate].
  apply words_as_asked in Hread. change (Z.to_nat 16) with 16%nat in Hread.
  rewrite page_header_fields_length.
  destruct keep_rsvd.
  - unfold ret. intros Hrun. inversion Hrun; subst.
    now rewrite length_app, length_map, filter_true_length, Hread, Hnames.
  - unfold lift, ret.
    destruct (named_words (reg_names page) 0 ws) as [fields | e] eqn:Hnamed;
      [| discriminate].
    intros Hrun. inversion Hrun; subst.
    rewrite length_app, (named_words_length _ _ _ Hnamed), Hread.
    cbn [skipn]. rewrite <- Hnames at 1. now rewrite firstn_all.
Qed.

Lemma log_pages_length (pages : list RegisterPage) :
  Forall (fun page => length (reg_names page) = 16%nat) pages ->
  forall (row row' : list String.string) (s s' : S),
    for_in pages (log_page keep_rsvd) row s = (Ok row', s') ->
    length row'
    = (length row
       + length (flat_map
                   (fun page =>
                      page_header_fields keep_rsvd (base_addr page) 0
                        (reg_names page))
                   pages))%nat.
Proof.
  induction 1 as [|page pages Hpage Hpages IH]; intros row row' s s' Hrun.
  - inversion Hrun. cbn. lia.
  - cbn [for_in] in Hrun. unfold bind in Hrun.
    destruct (log_page keep_rsvd page row s) as [[row1 | e] s1] eqn:Hstep;
      [| discriminate].
    apply log_page_length in Hstep; [| exact Hpage].
    apply IH in Hrun. cbn [flat_map]. rewrite length_app. lia.
Qed.

Lemma log_sbs_length (sbs_registers : list SBS_Register) :
  forall (row row' : list String.string) (s s' : S),
    for_in sbs_registers log_sbs row s = (Ok row', s') ->
    length row' = (length row + length sbs_registers)%nat.
Proof.
  induction sbs_registers as [|sbs rest IH]; intros row row' s s' Hrun.
  - inversion Hrun. cbn. lia.
  - cbn [for_in] in Hrun. unfold bind in Hrun.
    destruct (log_sbs sbs row s) as [[row1 | e] s1] eqn:Hstep;
      [| discriminate].
    apply IH in Hrun. cbn [length]. rewrite Hrun.
    unfold log_sbs, bind, ret in Hstep.
    destruct (0 <? block_size sbs).
    + destruct (i2c_iface.sbs_block_read _ _ _ s) as [[rd | e] s2];
        [| discriminate].
      inversion Hstep; subst. rewrite length_app. cbn [length]. lia.
    + destruct (i2c_iface.sbs_word_read _ _ s) as [[w | e] s2];
        [| discriminate].
      inversion Hstep; subst. rewrite length_app. cbn [length]. lia.
Qed.

Lemma collect_row_length
  (pages : list RegisterPage) (sbs_registers : list SBS_Register)
  (now : Z) (row : list String.string) (s s' : S) :
  Forall (fun page => length (reg_names page) = 16%nat) pages ->
  collect_row_of pages sbs_registers keep_rsvd now s = (Ok row, s') ->
  length row = length (get_header_fields_of pages sbs_registers keep_rsvd).
Proof.
  intros Hpages. unfold collect_row_of, get_header_fields_of, bind, ret.
  destruct (for_in pages (log_page keep_rsvd) [py_str now] s)
    as [[row1 | e] s1] eqn:Hp; [| discriminate].
  destruct (for_in sbs_registers log_sbs row1 s1)
    as [[row2 | e] s2] eqn:Hs; [| discriminate].
  intros Hrun. inversion Hrun; subst.
  apply log_pages_length in Hp; [| exact Hpages]. apply log_sbs_length in Hs.
  rewrite !length_app, length_map. cbn [length] in *. lia.
Qed.

End AnyBus.

Lemma engine_words_as_asked (T : Type) (TT : Transport T)
  (bus_addr reg_addr num_words : Z) (t t' : T) (ws : list Z) :
  ftd2xx_i2c.i2c_read_words bus_addr reg_addr num_words t = (Ok ws, t') ->
  length ws = Z.to_nat num_words.
Proof.
  rewrite i2c_read_words_via_block.
  destruct (ftd2xx_i2c.sbs_block_read bus_addr reg_addr (num_words * 2) t)
    as [[rd | e] t1]; [| discriminate].
  destruct (bytes rd) as [buf | e]; [| discriminate].
  intros Hrun. inversion Hrun as [[Hu Ht]].
  now destruct (@unpack_H_length (Z.to_nat num_words) buf ws Hu).
Qed.

Lemma native_words_as_asked (B : Type) (NB : SMBus B)
  (bus_addr reg_addr num_words : Z) (b b' : B) (ws : list Z) :
  smbus2_i2c.i2c_read_words bus_addr reg_addr num_words b = (Ok ws, b') ->
  length ws = Z.to_nat num_words.
Proof.
  unfold smbus2_i2c.i2c_read_words, bind, lift.
  destruct (read_i2c_block_data _ _ _ b) as [[rd | e] b1]; [| discriminate].
  destruct (bytes rd) as [buf | e]; [| discriminate].
  intros Hrun. inversion Hrun as [[Hu Hb]].
  now destruct (@unpack_H_length (Z.to_nat num_words) buf ws Hu).
Qed.

(** X11.  A row has as many fields as the header, over either backend
    and any transport or bus, with reserved registers kept or dropped,
    for every register map whose pages name 16 registers each: the time
    stamp, one field per header name of each page, one field per SBS
    register.  The register map of [max1730x_regs.py] is such a map. *)
Theorem row_has_as_many_fields_as_header
  (pages : list RegisterPage) (sbs_registers : list SBS_Register)
  (keep_rsvd : bool) (now : Z) :
  Forall (fun page => length (reg_names page) = 16%nat) pages ->
  (forall (T : Type) (TT : Transport T) (t t' : T) (row : list String.string),
      collect_row_of (H := i2c_iface.ftd2xx_backend TT)
        pages sbs_registers keep_rsvd now t = (Ok row, t') ->
      length row = length (get_header_fields_of pages sbs_registers keep_rsvd))
  /\ (forall (B : Type) (NB : SMBus B) (b b' : B) (row : list String.string),
         collect_row_of (H := i2c_iface.smbus2_backend NB)
           pages sbs_registers keep_rsvd now b = (Ok row, b') ->
         length row
         = length (get_header_fields_of pages sbs_registers keep_rsvd)).
Proof.
  intros Hpages. split.
  - intros T TT t t' row Hrun.
    eapply (@collect_row_length T (i2c_iface.ftd2xx_backend TT));
      [| exact Hpages | exact Hrun].
    intros a r n s s' ws. apply engine_words_as_asked.
  - intros B NB b b' row Hrun.
    eapply (@collect_row_length B (i2c_iface.smbus2_backend NB));
      [| exact Hpages | exact Hrun].
    intros a r n s s' ws. apply native_words_as_asked.
Qed.

Lemma row_has_as_many_fields_as_header_witness :
  Forall (fun page => length (reg_names page) = 16%nat) REGISTER_PAGES
  /\ exists (row : list String.string) (b' : bus),
       collect_row (H := i2c_iface.smbus2_backend smbus) false 1730000000
         (fun _ _ : Z => repeat 0xA5 32)
       = (Ok row, b')
       /\ length row = length (get_header_fields false).
Proof.
  assert (Hpages :
    Forall (fun page => length (reg_names page) = 16%nat) REGISTER_PAGES)
    by (repeat constructor).
  split; [exact Hpages |].
  destruct (collect_row (H := i2c_iface.smbus2_backend smbus) false 1730000000
              (fun _ _ : Z => repeat 0xA5 32))
    as [[row | e] b'] eqn:Hrun.
  - exists row, b'. split; [reflexivity |].
    exact (proj2 (@row_has_as_many_fields_as_header REGISTER_PAGES
                    SBS_REGISTERS false 1730000000 Hpages)
             bus smbus _ _ row Hrun).
  - exfalso. vm_compute in Hrun. discriminate Hrun.
Defined.

(** ** What the logger asks of a backend *)

Lemma land_ff_byte (x : Z) : 0 <= Z.land x 0xFF < 256.
Proof. apply land_low8. now rewrite <- Z.land_assoc. Qed.



Example logger_requests_of_the_shipped_map :
  let requests := snd (collect_row (H := recorder) true 0 []) in
  length requests = 57%nat
  /\ firstn 2 requests = [ReadWords 0x6C 0x00 16; ReadWords 0x6C 0x10 16]
  /\ nth 9 requests (WordRead 0 0) = ReadWords 0x16 0x80 16
  /\ nth 43 requests (WordRead 0 0) = BlockRead 0x16 0x1C 6
  /\ nth 56 requests (WordRead 0 0) = WordRead 0x16 0x68.
Proof. vm_compute. repeat split. Qed.

(** ** The logger over the bit-banged engine *)

Lemma Forall_skipn {A} (P : A -> Prop) (n : nat) (l : list A) :
  Forall P l -> Forall P (skipn n l).
Proof.
  intros Hl. rewrite <- (firstn_skipn n l) in Hl.
  now apply Forall_app in Hl.
Qed.

Lemma explained_benign {A} (r : result A) (q : list Z) (need : nat) :
  explained r q need -> benign r.
Proof. destruct r as [a | []]; cbn; auto. Qed.

Lemma sbs_block_read_keeps_bytes
  (bus_addr reg_addr num_bytes : Z) (d : dev) :
  Forall (fun b => 0 <= b < 256) (rx d) ->
  Forall (fun b => 0 <= b < 256)
    (rx (snd (ftd2xx_i2c.sbs_block_read bus_addr reg_addr num_bytes d))).
Proof.
  intros Hall. rewrite sbs_block_read_mock_any.
  destruct (rx d) as [|a1 q1]; [constructor |].
  inversion Hall as [|? ? _ H1]; subst.
  destruct (Z.testbit a1 0); [exact H1 |].
  destruct (is_byte reg_addr); [| exact H1].
  destruct q1 as [|a2 q2]; [constructor |].
  inversion H1 as [|? ? _ H2]; subst.
  destruct (Z.testbit a2 0); [exact H2 |].
  destruct q2 as [|a3 q3]; [constructor |].
  inversion H2 as [|? ? _ H3]; subst.
  destruct (Z.testbit a3 0); [exact H3 |].
  destruct (Z.to_nat num_bytes <=? length q3)%nat; cbn [snd rx];
    [now apply Forall_skipn | constructor].
Qed.

Lemma engine_reads_benign (bus_addr reg_addr num : Z) (d : dev) :
  0 <= reg_addr < 256 ->
  Forall (fun b => 0 <= b < 256) (rx d) ->
  (benign (fst (ftd2xx_i2c.sbs_block_read bus_addr reg_addr num d))
   /\ Forall (fun b => 0 <= b < 256)
        (rx (snd (ftd2xx_i2c.sbs_block_read bus_addr reg_addr num d))))
  /\ (benign (fst (ftd2xx_i2c.i2c_read_words bus_addr reg_addr num d))
      /\ Forall (fun b => 0 <= b < 256)
           (rx (snd (ftd2xx_i2c.i2c_read_words bus_addr reg_addr num d))))
  /\ (benign (fst (ftd2xx_i2c.sbs_word_read bus_addr reg_addr d))
      /\ Forall (fun b => 0 <= b < 256)
           (rx (snd (ftd2xx_i2c.sbs_word_read bus_addr reg_addr d)))).
Proof.
  intros Hreg Hall. repeat apply conj.
  - eapply explained_benign. now apply sbs_block_read_explained.
  - now apply sbs_block_read_keeps_bytes.
  - rewrite (@i2c_read_words_of_block bus_addr reg_addr num d Hall).
    pose proof (@sbs_block_read_explained bus_addr reg_addr (num * 2) d Hreg)
      as Hex. apply explained_benign in Hex.
    destruct (ftd2xx_i2c.sbs_block_read bus_addr reg_addr (num * 2) d)
      as [[rd | e] d']; exact Hex.
  - rewrite (@i2c_read_words_of_block bus_addr reg_addr num d Hall).
    pose proof (@sbs_block_read_keeps_bytes bus_addr reg_addr (num * 2) d Hall)
      as Hk.
    destruct (ftd2xx_i2c.sbs_block_read bus_addr reg_addr (num * 2) d)
      as [[rd | e] d']; exact Hk.
  - rewrite (@sbs_word_read_of_block bus_addr reg_addr d Hall).
    pose proof (@sbs_block_read_explained bus_addr reg_addr 2 d Hreg) as Hex.
    apply explained_benign in Hex.
    destruct (ftd2xx_i2c.sbs_block_read bus_addr reg_addr 2 d)
      as [[rd | e] d']; exact Hex.
  - rewrite (@sbs_word_read_of_block bus_addr reg_addr d Hall).
    pose proof (@sbs_block_read_keeps_bytes bus_addr reg_addr 2 d Hall) as Hk.
    destruct (ftd2xx_i2c.sbs_block_read bus_addr reg_addr 2 d)
      as [[rd | e] d']; exact Hk.
Qed.

Lemma named_words_benign (names : list (option String.string)) :
  forall (reg_data : list Z) (idx : nat),
    benign (named_words names idx reg_data).
Proof.
  induction reg_data as [|w rest IH]; intros idx; cbn [named_words];
    [exact I |].
  destruct (nth_error names idx); [| exact I].
  specialize (IH (S idx)).
  destruct (named_words names (S idx) rest) as [fields | e]; [exact I | exact IH].
Qed.

Lemma engine_for_in_benign {A} {Acc} (body : A -> Acc -> M dev Acc) :
  (forall x acc d,
      Forall (fun b => 0 <= b < 256) (rx d) ->
      benign (fst (body x acc d))
      /\ Forall (fun b => 0 <= b < 256) (rx (snd (body x acc d)))) ->
  forall (xs : list A) (acc : Acc) (d : dev),
    Forall (fun b => 0 <= b < 256) (rx d) ->
    benign (fst (for_in xs body acc d))
    /\ Forall (fun b => 0 <= b < 256) (rx (snd (for_in xs body acc d))).
Proof.
  intros Hbody. induction xs as [|x xs IH]; intros acc d Hall.
  - cbn. auto.
  - cbn [for_in]. unfold bind.
    destruct (Hbody x acc d Hall) as [Hb Hrx].
    destruct (body x acc d) as [[acc' | e] d1]; cbn [fst snd] in *.
    + now apply IH.
    + auto.
Qed.

(** X13.  Over the bit-banged engine, for every register map and every
    answer of a device that delivers bytes, collecting a row either
    succeeds or fails with [IOError] (a byte refused) or [IndexError]
    (the device silent, or a page with fewer names than words): the
    logger never drives the engine into [ValueError] or [StructError]. *)
Theorem logger_over_engine_faults
  (pages : list RegisterPage) (sbs_registers : list SBS_Register)
  (keep_rsvd : bool) (now : Z) (d : dev) :
  Forall (fun b => 0 <= b < 256) (rx d) ->
  benign (fst (collect_row_of (H := i2c_iface.ftd2xx_backend transport)
                 pages sbs_registers keep_rsvd now d)).
Proof.
  intros Hall.
  assert (Hpage : forall page row d0,
    Forall (fun b => 0 <= b < 256) (rx d0) ->
    benign (fst (log_page (H := i2c_iface.ftd2xx_backend transport)
                   keep_rsvd page row d0))
    /\ Forall (fun b => 0 <= b < 256)
         (rx (snd (log_page (H := i2c_iface.ftd2xx_backend transport)
                     keep_rsvd page row d0)))).
  { intros page row d0 H0. unfold log_page, bind.
    cbn [i2c_iface.i2c_read_words i2c_iface.ftd2xx_backend].
    destruct (@engine_reads_benign (dev_addr page)
                (Z.land (base_addr page) 0xFF) 16 d0
                (land_ff_byte (base_addr page)) H0)
      as (_ & [Hb Hrx] & _).
    destruct (ftd2xx_i2c.i2c_read_words (dev_addr page)
                (Z.land (base_addr page) 255) 16 d0) as [[ws | e] d1];
      cbn [fst snd] in *; [| auto].
    destruct keep_rsvd; [cbn; auto |].
    unfold lift, ret.
    pose proof (named_words_benign (reg_names page) ws 0) as Hn.
    destruct (named_words (reg_names page) 0 ws); cbn [fst snd]; auto. }
  assert (Hsbs : forall sbs row d0,
    Forall (fun b => 0 <= b < 256) (rx d0) ->
    benign (fst (log_sbs (H := i2c_iface.ftd2xx_backend transport)
                   sbs row d0))
    /\ Forall (fun b => 0 <= b < 256)
         (rx (snd (log_sbs (H := i2c_iface.ftd2xx_backend transport)
                     sbs row d0)))).
  { intros sbs row d0 H0. unfold log_sbs, bind.
    cbn [i2c_iface.sbs_block_read i2c_iface.sbs_word_read
         i2c_iface.ftd2xx_backend].
    destruct (@engine_reads_benign (sbs_dev_addr sbs)
                (Z.land (sbs_base_addr sbs) 0xFF) (block_size sbs) d0
                (land_ff_byte (sbs_base_addr sbs)) H0)
      as ([Bb Brx] & _ & [Wb Wrx]).
    destruct (0 <? block_size sbs).
    - destruct (ftd2xx_i2c.sbs_block_read (sbs_dev_addr sbs)
                  (Z.land (sbs_base_addr sbs) 255) (block_size sbs) d0)
        as [[rd | e] d1]; cbn [fst snd] in *; auto.
    - destruct (ftd2xx_i2c.sbs_word_read (sbs_dev_addr sbs)
                  (Z.land (sbs_base_addr sbs) 255) d0)
        as [[w | e] d1]; cbn [fst snd] in *; auto. }
  unfold collect_row_of, bind.
  destruct (engine_for_in_benign _ Hpage pages [py_str now] d Hall)
    as [Hb1 Hrx1].
  destruct (for_in pages (log_page keep_rsvd) [py_str now] d)
    as [[row1 | e] d1]; cbn [fst snd] in *; [| exact Hb1].
  destruct (engine_for_in_benign _ Hsbs sbs_registers row1 d1 Hrx1)
    as [Hb2 _].
  destruct (for_in sbs_registers log_sbs row1 d1) as [[row2 | e] d2];
    cbn [fst snd] in *; [exact I | exact Hb2].
Qed.

Lemma logger_over_engine_faults_witness :
  benign (fst (collect_row (H := i2c_iface.ftd2xx_backend transport)
                 false 1730000000
                 {| trace := []; rx := [0x00; 0x01; 0x00] |})).
Proof.
  refine (@logger_over_engine_faults REGISTER_PAGES SBS_REGISTERS false
            1730000000 {| trace := []; rx := [0x00; 0x01; 0x00] |} _).
  repeat constructor; lia.
Defined.

(** ** Columns line up *)





